(** * tg_inpaint_bot: the mask reconstruction engine and the request pipeline

    A shallow embedding of [bot.py].  Python [int] is [Z], [bytes] is a list
    of integers in [0, 256), [str] is a list of Unicode code points, the
    process-wide dict [LAST_IMAGE_URL] is a [gmap], and a PIL image of mode
    ["L"] is a record of its size and its row-major pixel list.  Exceptions
    are explicit: a fallible call returns a [result]. *)

From Stdlib Require Import ZArith String Ascii List Lia QArith.
From stdpp Require Import base option list gmap pretty.

Local Open Scope Z_scope.

(** ** Python values shared by the whole file *)

(** A Python [str]: the sequence of its code points. *)
Abbreviation str := (list Z).

(** Decoding of a UTF-8 source literal into code points, so that the
    literals of [bot.py] can be written as they stand in the source. *)
Fixpoint utf8_decode (bs : list Z) : list Z :=
  match bs with
  | [] => []
  | b0 :: t0 =>
    if b0 <? 128 then b0 :: utf8_decode t0
    else match t0 with
      | [] => [b0]
      | b1 :: t1 =>
        if b0 <? 224 then ((b0 - 192) * 64 + (b1 - 128)) :: utf8_decode t1
        else match t1 with
          | [] => [b0; b1]
          | b2 :: t2 =>
            if b0 <? 240
            then ((b0 - 224) * 4096 + (b1 - 128) * 64 + (b2 - 128)) :: utf8_decode t2
            else match t2 with
              | [] => [b0; b1; b2]
              | b3 :: t3 =>
                ((b0 - 240) * 262144 + (b1 - 128) * 4096 + (b2 - 128) * 64 + (b3 - 128))
                  :: utf8_decode t3
              end
          end
      end
  end.

Definition u (s : string) : str :=
  utf8_decode (map (fun a => Z.of_N (N_of_ascii a)) (list_ascii_of_string s)).
Arguments u : simpl never.

(** Exceptions, by the class Python raises. *)
Inductive exn : Type :=
  | ValueError
  | IndexError
  | TypeError
  | AttributeError
  | KeyError
  | RuntimeError (msg : str)
  | ClientError (msg : str).

Inductive result (A : Type) : Type :=
  | Ok (a : A)
  | Raise (e : exn).
Arguments Ok {A} a.
Arguments Raise {A} e.

#[export] Instance result_bind : MBind result :=
  fun A B k r => match r with Ok a => k a | Raise e => Raise e end.
#[export] Instance result_ret : MRet result := @Ok.

(** ** PIL images of mode "L" *)

Record Image : Type := mkImage {
  width : Z;
  height : Z;
  pixels : list Z   (* row-major, one byte per pixel *)
}.

(** [Image.new("L", (w, h), c)]: a negative side raises [ValueError]
    (checked in Python, before the size reaches the C layer).  Sides
    beyond the range of a C integer are not modelled. *)
Definition Image_new (w h c : Z) : result Image :=
  if (w <? 0) || (h <? 0) then Raise ValueError
  else Ok (mkImage w h (replicate (Z.to_nat (w * h)) c)).

(** [Image.frombytes("L", (w, h), data)]: a negative side raises, and so
    does data shorter than [w*h] bytes ("not enough image data"). *)
Definition Image_frombytes (w h : Z) (data : list Z) : result Image :=
  if (w <? 0) || (h <? 0) then Raise ValueError
  else if Z.of_nat (length data) <? w * h then Raise ValueError
  else Ok (mkImage w h (take (Z.to_nat (w * h)) data)).

(** [im.getpixel((i, j))] for a position inside the image. *)
Definition getpixel (im : Image) (i j : Z) : option Z :=
  if (0 <=? i) && (i <? width im) && (0 <=? j) && (j <? height im)
  then pixels im !! Z.to_nat (j * width im + i)
  else None.

(** ** BitmaskDecoder: [_unpack_bitmask_to_L] *)

(** [bytearray(n)]: [n] zero bytes; a negative count raises [ValueError].
    The counts are those of the interpreter's index type: outside
    [-2^63, 2^63) the call raises [OverflowError], and a count the
    machine cannot allocate raises [MemoryError]; neither is modelled. *)
Definition bytearray (n : Z) : result (list Z) :=
  if n <? 0 then Raise ValueError else Ok (replicate (Z.to_nat n) 0).

(** [out[idx] = v] on a bytearray: an index in [-len, 0) counts from the
    end, anything outside [-len, len) raises [IndexError]. *)
Definition setitem (out : list Z) (idx v : Z) : result (list Z) :=
  let n := Z.of_nat (length out) in
  if (0 <=? idx) && (idx <? n) then Ok (<[Z.to_nat idx := v]> out)
  else if (- n <=? idx) && (idx <? 0) then Ok (<[Z.to_nat (n + idx) := v]> out)
  else Raise IndexError.

(** [range(7, -1, -1)] *)
Definition bit_range : list Z := [7; 6; 5; 4; 3; 2; 1; 0].

(** The pixel written for bit [bit] of byte [b]:
    [255 if ((b >> bit) & 1) else 0]. *)
Definition pixel_of_bit (b bit : Z) : Z :=
  if Z.land (Z.shiftr b bit) 1 =? 0 then 0 else 255.

(** The inner [for bit in range(7, -1, -1)] loop over the state
    [(out, idx)], with its [break]. *)
Fixpoint unpack_bits (total b : Z) (bits : list Z) (st : list Z * Z)
  : result (list Z * Z) :=
  match bits with
  | [] => Ok st
  | bit :: bits' =>
    let '(out, idx) := st in
    if idx >=? total then Ok st
    else
      out' ← setitem out idx (pixel_of_bit b bit);
      unpack_bits total b bits' (out', idx + 1)
  end.

(** The outer [for b in raw] loop, with its [break]. *)
Fixpoint unpack_bytes (total : Z) (raw : list Z) (st : list Z * Z)
  : result (list Z * Z) :=
  match raw with
  | [] => Ok st
  | b :: raw' =>
    st' ← unpack_bits total b bit_range st;
    if snd st' >=? total then Ok st' else unpack_bytes total raw' st'
  end.

(** The body of [_unpack_bitmask_to_L] after [raw = base64.b64decode(b64)]. *)
Definition unpack_raw (raw : list Z) (w h : Z) : result Image :=
  let total := w * h in
  out ← bytearray total;
  st ← unpack_bytes total raw (out, 0);
  Image_frombytes w h (fst st).

(** [_unpack_bitmask_to_L], over the library's base64 decoder. *)
Definition _unpack_bitmask_to_L {B : Type} (b64decode : B -> result (list Z))
    (b64 : B) (w h : Z) : result Image :=
  raw ← b64decode b64;
  unpack_raw raw w h.

(** ** MaskCompositor: [_build_fullsize_mask] *)

(** An image given by its pixel function, row-major. *)
Definition image_of_fun (w h : Z) (f : Z -> Z -> Z) : Image :=
  mkImage w h (map (fun k => f (k mod w) (k / w)) (seqZ 0 (w * h))).

(** The value PIL reads at a source position; a position outside the
    source leaves the destination pixel at its fill value 0. *)
Definition sample (im : Image) (i j : Z) : Z :=
  default 0 (getpixel im i j).

Section Resampling.

(** [Image.NEAREST]: every destination pixel is a copy of one source
    pixel.  [nearest s d k] is the source index PIL picks along one axis
    for destination index [k], when a side of [s] pixels is resized to
    [d] pixels.  PIL computes it in floating point; the compositor is
    modelled for any such choice. *)
Variable nearest : Z -> Z -> Z -> Z.

(** [im.resize((w, h), Image.NEAREST)]; a side below 1 raises. *)
Definition Image_resize (im : Image) (w h : Z) : result Image :=
  if (w <? 1) || (h <? 1) then Raise ValueError
  else Ok (image_of_fun w h (fun i j =>
             sample im (nearest (width im) w i) (nearest (height im) h j))).

(** [canvas.paste(m, (x, y))]: the part of [m] that falls on the canvas
    replaces the canvas pixels there; the rest of [m] is clipped.  The
    offsets are those Pillow can parse as C integers: beyond that range
    the call raises [OverflowError], which is not modelled. *)
Definition Image_paste (canvas m : Image) (x y : Z) : Image :=
  image_of_fun (width canvas) (height canvas) (fun i j =>
    if (x <=? i) && (i <? x + width m) && (y <=? j) && (j <? y + height m)
    then sample m (i - x) (j - y)
    else sample canvas i j).

(** [x, y, w, h = map(int, bbox)] *)
Definition unpack4 (bbox : list Z) : result (Z * Z * Z * Z) :=
  match bbox with
  | [x; y; w; h] => Ok (x, y, w, h)
  | _ => Raise ValueError
  end.

Definition _build_fullsize_mask (nat_w nat_h : Z) (bbox : list Z)
    (small_mask : Image) : result Image :=
  '(x, y, w, h) ← unpack4 bbox;
  mask_full ← Image_new nat_w nat_h 0;
  if (w >? 0) && (h >? 0) && (x <? nat_w) && (y <? nat_h) then
    let w := Z.min w (nat_w - x) in
    let h := Z.min h (nat_h - y) in
    if (w >? 0) && (h >? 0) then
      m ← Image_resize small_mask w h;
      Ok (Image_paste mask_full m x y)
    else Ok mask_full
  else Ok mask_full.

End Resampling.

(** The centre-of-pixel rule of nearest-neighbour sampling in exact
    arithmetic: destination index [k] reads source index
    [floor ((k + 1/2) * s / d)]. *)
Definition nearest_center (s d k : Z) : Z := ((2 * k + 1) * s) / (2 * d).

(** ** Strings *)

(** [str.isspace] on one code point. *)
Definition isspace (c : Z) : bool :=
  ((9 <=? c) && (c <=? 13)) || ((28 <=? c) && (c <=? 32))
  || (c =? 133) || (c =? 160) || (c =? 5760)
  || ((8192 <=? c) && (c <=? 8202))
  || (c =? 8232) || (c =? 8233) || (c =? 8239) || (c =? 8287) || (c =? 12288).

Fixpoint lstrip (s : str) : str :=
  match s with
  | c :: s' => if isspace c then lstrip s' else s
  | [] => []
  end.

(** [s.strip()] *)
Definition strip (s : str) : str := rev (lstrip (rev (lstrip s))).

Fixpoint startswith (s p : str) : bool :=
  match p, s with
  | [], _ => true
  | _ :: _, [] => false
  | a :: p', b :: s' => (a =? b) && startswith s' p'
  end.

(** [sub in s] *)
Fixpoint contains (sub s : str) : bool :=
  startswith s sub
  || match s with
     | [] => false
     | _ :: s' => contains sub s'
     end.

(** [s.split(sep)] for a non-empty [sep]: [skip] counts the characters of a
    separator just matched that are still to be passed over, [cur] is the
    current piece, reversed. *)
Fixpoint split_go (sep : str) (skip : nat) (cur s : str) : list str :=
  match s with
  | [] => [rev cur]
  | c :: s' =>
    match skip with
    | S k => split_go sep k cur s'
    | O =>
      if startswith s sep
      then rev cur :: split_go sep (length sep - 1) [] s'
      else split_go sep O (c :: cur) s'
    end
  end.

Definition split (s sep : str) : list str := split_go sep O [] s.

(** The decimal form of an integer, as [f"{n}"] writes it. *)
Definition dec (n : Z) : str := u (pretty n).

(** [CYRILLIC_RE = re.compile(r"[А-Яа-яЁё]")] and its [search]. *)
Definition cp (s : string) : Z := hd 0 (u s).

Definition CYRILLIC_RE_match (c : Z) : bool :=
  ((cp "А" <=? c) && (c <=? cp "Я"))
  || ((cp "а" <=? c) && (c <=? cp "я"))
  || (c =? cp "Ё") || (c =? cp "ё").

Definition CYRILLIC_RE_search (text : str) : bool :=
  existsb CYRILLIC_RE_match text.

(** ** Python values read from JSON *)

(** What [json.loads] and [r.json()] produce.  A dict is the list of its
    items in insertion order (keys distinct); the literals [NaN] and
    [Infinity] are not covered by [PFloat]. *)
#[warnings="-register-all"] Inductive pyval : Type :=
  | PNone
  | PBool (b : bool)
  | PInt (n : Z)
  | PFloat (q : Q)
  | PStr (s : str)
  | PList (l : list pyval)
  | PDict (kv : list (str * pyval)).

(** Truth value, as [if v:], [not v] and [v or w] test it. *)
Definition truthy (v : pyval) : bool :=
  match v with
  | PNone => false
  | PBool b => b
  | PInt n => negb (n =? 0)
  | PFloat q => negb (Qnum q =? 0)
  | PStr s => negb (bool_decide (s = []))
  | PList l => match l with [] => false | _ => true end
  | PDict kv => match kv with [] => false | _ => true end
  end.

(** [v or w] *)
Definition py_or (v w : pyval) : pyval := if truthy v then v else w.

Fixpoint assoc (k : str) (kv : list (str * pyval)) : option pyval :=
  match kv with
  | [] => None
  | (k', v) :: kv' => if bool_decide (k' = k) then Some v else assoc k kv'
  end.

(** [d.get(k, dflt)]: only a dict has [get]. *)
Definition py_get_default (d : pyval) (k : str) (dflt : pyval) : result pyval :=
  match d with
  | PDict kv => Ok (default dflt (assoc k kv))
  | _ => Raise AttributeError
  end.

(** [d.get(k)] *)
Definition py_get (d : pyval) (k : str) : result pyval :=
  py_get_default d k PNone.

(** [v[0]] *)
Definition py_index0 (v : pyval) : result pyval :=
  match v with
  | PList (x :: _) => Ok x
  | PList [] => Raise IndexError
  | PStr (c :: _) => Ok (PStr [c])
  | PStr [] => Raise IndexError
  | PDict _ => Raise KeyError
  | _ => Raise TypeError
  end.

(** [v.strip()]: only a str has [strip]. *)
Definition py_strip (v : pyval) : result str :=
  match v with
  | PStr s => Ok (strip s)
  | _ => Raise AttributeError
  end.

(** [for x in v] collected: a list gives its elements, a str its
    characters, a dict its keys. *)
Definition py_iter (v : pyval) : result (list pyval) :=
  match v with
  | PList l => Ok l
  | PStr s => Ok (map (fun c => PStr [c]) s)
  | PDict kv => Ok (map (fun p => PStr (fst p)) kv)
  | _ => Raise TypeError
  end.

Fixpoint mapM {A B : Type} (f : A -> result B) (l : list A) : result (list B) :=
  match l with
  | [] => Ok []
  | a :: l' => b ← f a; bs ← mapM f l'; Ok (b :: bs)
  end.

(** ** The outside world *)

Record response : Type := mkResponse {
  status : Z;
  content_type : option str;           (* the Content-Type header, if any *)
  resp_text : result str;              (* await r.text() *)
  resp_json : result pyval;            (* await r.json() *)
  resp_read : result (list Z)          (* await r.read() *)
}.

Inductive field : Type :=
  | FileField (name : str) (data : list Z) (filename ctype : str)
  | TextField (name value : str).

Inductive body : Type :=
  | FormData (fields : list field)
  | JsonBody (payload : pyval).

Record request : Type := mkRequest {
  req_url : str;
  req_headers : list (str * str);
  req_body : body
}.

(** What the handlers do to the outside, in order. *)
Inductive event : Type :=
  | EvGet (url : str)
  | EvPost (rq : request)
  | EvExists (path : str)
  | EvReadFile (path : str)
  | EvSaveUpload (file_id : str)
  | EvReplyText (text : str)
  | EvReplyPhoto (photo : list Z) (caption : str).

(** The answers of the library and of the network.  The bot makes each
    request at most once per update, so an answer per request is as
    general as an answer per call.  [reply_text] is taken to succeed;
    logging is not traced. *)
Record World : Type := mkWorld {
  json_loads : str -> result pyval;          (* json.loads *)
  b64decode : pyval -> result (list Z);      (* base64.b64decode *)
  int_of_str : str -> result Z;              (* int(s) on a str *)
  save_png : Image -> result (list Z);       (* im.save(buf, format="PNG") *)
  nearest : Z -> Z -> Z -> Z;                (* Image.NEAREST, see above *)
  path_exists : str -> bool;                 (* os.path.exists *)
  read_file : str -> result (list Z);        (* open(p, "rb").read() *)
  http_get : str -> result response;
  http_post : request -> result response;
  reply_photo : list Z -> str -> result unit;
  upload_name : str -> result str;           (* file name chosen for an upload *)
  exn_str : exn -> str;                      (* f"{e}" *)
  repr : pyval -> str                        (* f"{v}" for a non-str value *)
}.

Record Config : Type := mkConfig {
  STABILITY_API_KEY : str;
  PUBLIC_BASE_URL : str;
  DEEPL_API_KEY : str;
  DEEPL_API_URL : str;
  LIBRETRANSLATE_URL : str;
  LIBRETRANSLATE_API_KEY : str
}.

Definition UPLOAD_DIR : str := u "/var/www/funfishinggame.store/html/uploads".

(** A computation of a handler: the events it performed, and its value or
    the exception that ended it. *)
Definition io (A : Type) : Type := (list event * result A)%type.

Definition io_ret {A : Type} (a : A) : io A := ([], Ok a).

Definition io_bind {A B : Type} (m : io A) (k : A -> io B) : io B :=
  match m with
  | (evs, Ok a) => let '(evs', r) := k a in (evs ++ evs', r)
  | (evs, Raise e) => (evs, Raise e)
  end.

(** [try: m except Exception as e: h e] *)
Definition io_try {A : Type} (m : io A) (h : exn -> io A) : io A :=
  match m with
  | (evs, Ok a) => (evs, Ok a)
  | (evs, Raise e) => let '(evs', r) := h e in (evs ++ evs', r)
  end.

Definition lift {A : Type} (r : result A) : io A := ([], r).
Definition emit {A : Type} (ev : event) (r : result A) : io A := ([ev], r).

Notation "x <- m ;; k" := (io_bind m (fun x => k))
  (at level 100, m at next level, right associativity, only parsing).
Notation "m ;;; k" := (io_bind m (fun _ => k))
  (at level 100, right associativity, only parsing).

(** [f"{v}"] *)
Definition format (W : World) (v : pyval) : str :=
  match v with
  | PStr s => s
  | _ => repr W v
  end.

(** [int(v)] *)
Definition py_int (W : World) (v : pyval) : result Z :=
  match v with
  | PInt n => Ok n
  | PBool b => Ok (if b then 1 else 0)
  | PFloat q => Ok (Z.quot (Qnum q) (Zpos (Qden q)))
  | PStr s => int_of_str W s
  | _ => Raise TypeError
  end.

(** [f"{e}"]: a [RuntimeError] prints the message it was raised with. *)
Definition exn_text (W : World) (e : exn) : str :=
  match e with
  | RuntimeError msg => msg
  | _ => exn_str W e
  end.

(** [os.path.join(a, b)] *)
Definition os_path_join (a b : str) : str :=
  if startswith b (u "/") then b
  else if bool_decide (a = []) || bool_decide (last a = Some (cp "/")) then a ++ b
  else a ++ u "/" ++ b.

Inductive provider : Type := deepl | libre.

Section Pipeline.

Context (W : World) (C : Config).

(** [r.raise_for_status()] *)
Definition raise_for_status (r : response) : result unit :=
  if 400 <=? status r then Raise (ClientError (dec (status r))) else Ok tt.

Definition download_bytes (url : str) : io (list Z) :=
  r <- emit (EvGet url) (http_get W url) ;;
  lift (raise_for_status r) ;;;
  lift (resp_read r).

(** *** Submit edit request: [call_stability_inpaint] *)

Definition stability_url : str :=
  u "https://api.stability.ai/v2beta/stable-image/edit/inpaint".

Definition stability_form (image_bytes mask_png : list Z) (prompt : str)
  : list field :=
  [FileField (u "image") image_bytes (u "image.png") (u "image/png");
   FileField (u "mask") mask_png (u "mask.png") (u "image/png")]
  ++ (if truthy (PStr (strip prompt))
      then [TextField (u "prompt") (strip prompt)] else [])
  ++ [TextField (u "output_format") (u "png")].

Definition stability_request (image_bytes mask_png : list Z) (prompt : str)
  : request :=
  mkRequest stability_url
    [(u "Authorization", u "Bearer " ++ STABILITY_API_KEY C);
     (u "Accept", u "image/*")]
    (FormData (stability_form image_bytes mask_png prompt)).

(** What [call_stability_inpaint] does with the response. *)
Definition stability_result (resp : response) : result (list Z) :=
  if negb (status resp =? 200) then
    txt ← resp_text resp;
    Raise (RuntimeError
      (u "Stability API error: " ++ dec (status resp) ++ u " " ++ txt))
  else
    let ctype := default [] (content_type resp) in
    if negb (contains (u "image/") ctype) then
      txt ← resp_text resp;
      Raise (RuntimeError
        (u "Unexpected content-type: " ++ ctype ++ u " | body: " ++ take 400 txt))
    else resp_read resp.

(** [prompt.strip()] is the first use of [prompt]: a value that is not a
    str raises [AttributeError] before anything is sent. *)
Definition call_stability_inpaint (image_bytes mask_png : list Z)
    (prompt : pyval) : io (list Z) :=
  match prompt with
  | PStr s =>
    let rq := stability_request image_bytes mask_png s in
    resp <- emit (EvPost rq) (http_post W rq) ;;
    lift (stability_result resp)
  | _ => lift (Raise AttributeError)
  end.

(** *** TranslationChain: [translate_ru_to_en] *)

Definition deepl_request (text : str) : request :=
  mkRequest (DEEPL_API_URL C)
    [(u "Authorization", u "DeepL-Auth-Key " ++ DEEPL_API_KEY C)]
    (FormData [TextField (u "text") text;
               TextField (u "target_lang") (u "EN");
               TextField (u "source_lang") (u "RU")]).

(** [j.get("translations", [{}])[0].get("text")] *)
Definition deepl_text (j : pyval) : result pyval :=
  t ← py_get_default j (u "translations") (PList [PDict []]);
  e ← py_index0 t;
  py_get e (u "text").

(** The DeepL [try] block: [Some tr] when it returns [tr, "deepl"],
    [None] when control falls through to the next provider. *)
Definition try_deepl (text : str) : io (option pyval) :=
  io_try
    (r <- emit (EvPost (deepl_request text)) (http_post W (deepl_request text)) ;;
     if status r =? 200 then
       (j <- lift (resp_json r) ;;
        tr <- lift (deepl_text j) ;;
        io_ret (if truthy tr then Some tr else None))
     else
       (_ <- lift (resp_text r) ;; io_ret None))
    (fun _ => io_ret None).

Definition libre_request (text : str) : request :=
  mkRequest (LIBRETRANSLATE_URL C ++ u "/translate") []
    (JsonBody (PDict (
      [(u "q", PStr text); (u "source", PStr (u "ru"));
       (u "target", PStr (u "en")); (u "format", PStr (u "text"))]
      ++ (if truthy (PStr (LIBRETRANSLATE_API_KEY C))
          then [(u "api_key", PStr (LIBRETRANSLATE_API_KEY C))] else [])))).

(** [j.get("translatedText")] *)
Definition libre_text (j : pyval) : result pyval :=
  py_get j (u "translatedText").

(** The LibreTranslate [try] block. *)
Definition try_libre (text : str) : io (option pyval) :=
  io_try
    (r <- emit (EvPost (libre_request text)) (http_post W (libre_request text)) ;;
     if status r =? 200 then
       (j <- lift (resp_json r) ;;
        tr <- lift (libre_text j) ;;
        io_ret (if truthy tr then Some tr else None))
     else
       (_ <- lift (resp_text r) ;; io_ret None))
    (fun _ => io_ret None).

Definition translate_ru_to_en (text : str) : io (pyval * option provider) :=
  if negb (truthy (PStr text)) || negb (CYRILLIC_RE_search text)
  then io_ret (PStr text, None)
  else
    r1 <- (if truthy (PStr (DEEPL_API_KEY C)) then try_deepl text
           else io_ret None) ;;
    match r1 with
    | Some tr => io_ret (tr, Some deepl)
    | None =>
      r2 <- try_libre text ;;
      match r2 with
      | Some tr => io_ret (tr, Some libre)
      | None => io_ret (PStr text, None)
      end
    end.
End Pipeline.

(** ** InpaintOrchestrator: [webapp_data] and the store [LAST_IMAGE_URL] *)

(** The values [webapp_data] reads from the payload before it validates. *)
Record fields : Type := mkFields {
  img_url : pyval;
  prompt : str;
  nat_w : Z;
  nat_h : Z;
  bm_w : Z;
  bm_h : Z;
  bbox : pyval;
  b64mask : pyval
}.

Definition msg_missing : str :=
  u "❌ Нет обязательных полей (img/mask/size). Откройте кисть и попробуйте снова.".

(** [try: m  except Exception as e: await msg.reply_text(text e); return],
    followed by the rest of the handler.  The text message is taken to be
    delivered; [guarded_replying] below is the same with a message that
    Telegram can refuse. *)
Definition guarded {A : Type} (m : io A) (text : exn -> str)
    (rest : A -> io unit) : io unit :=
  match m with
  | (evs, Ok a) => let '(evs', r) := rest a in (evs ++ evs', r)
  | (evs, Raise e) => (evs ++ [EvReplyText (text e)], Ok tt)
  end.

Section Orchestrator.

Context (W : World) (C : Config).

(** [LAST_IMAGE_URL.get(uid)] *)
Definition last_image (LAST_IMAGE_URL : gmap Z str) (uid : Z) : pyval :=
  match LAST_IMAGE_URL !! uid with
  | Some url => PStr url
  | None => PNone
  end.

(** Lines 224-231: the payload fields with their defaults. *)
Definition read_fields (LAST_IMAGE_URL : gmap Z str) (uid : Z) (data : pyval)
  : result fields :=
  img ← py_get data (u "img");
  let img_url := py_or img (last_image LAST_IMAGE_URL uid) in
  p ← py_get data (u "prompt");
  prompt ← py_strip (py_or p (PStr []));
  nw ← py_get data (u "nat_w");
  nat_w ← py_int W (py_or nw (PInt 0));
  nh ← py_get data (u "nat_h");
  nat_h ← py_int W (py_or nh (PInt 0));
  bw ← py_get data (u "bm_w");
  bm_w ← py_int W (py_or bw (PInt 0));
  bh ← py_get data (u "bm_h");
  bm_h ← py_int W (py_or bh (PInt 0));
  bb ← py_get data (u "bbox");
  let bbox := py_or bb (PList [PInt 0; PInt 0; PInt 0; PInt 0]) in
  b64mask ← py_get data (u "bitmask");
  Ok (mkFields img_url prompt nat_w nat_h bm_w bm_h bbox b64mask).

(** The test of line 233. *)
Definition missing (f : fields) : bool :=
  negb (truthy (img_url f)) || negb (truthy (b64mask f))
  || (nat_w f =? 0) || (nat_h f =? 0) || (bm_w f =? 0) || (bm_h f =? 0).

(** Lines 239-243: decode, composite, encode as PNG. *)
Definition build_mask (f : fields) : result (list Z) :=
  small ← _unpack_bitmask_to_L (b64decode W) (b64mask f) (bm_w f) (bm_h f);
  items ← py_iter (bbox f);
  box ← mapM (py_int W) items;
  full ← _build_fullsize_mask (nearest W) (nat_w f) (nat_h f) box small;
  save_png W full.

(** Lines 250-260: the source image, from the upload directory when the
    reference points there and the file exists, else over the network. *)
Definition load_source (f : fields) : io (list Z) :=
  match img_url f with
  | PStr url =>
    let prefix := PUBLIC_BASE_URL C ++ u "/uploads/" in
    if startswith url prefix then
      let name :=
        hd [] (split (default [] (last (split url (u "/uploads/")))) (u "?")) in
      let local_path := os_path_join UPLOAD_DIR name in
      ex <- emit (EvExists local_path) (Ok (path_exists W local_path)) ;;
      if ex : bool then emit (EvReadFile local_path) (read_file W local_path)
      else download_bytes W url
    else download_bytes W url
  | _ => lift (Raise AttributeError)
  end.

(** Lines 266-275: [(prompt_to_send, caption_prompt)]. *)
Definition translate_prompt (f : fields) : io (pyval * str) :=
  if truthy (PStr (prompt f)) then
    r <- translate_ru_to_en W C (prompt f) ;;
    let '(translated, provider) := r in
    if bool_decide (is_Some provider) && truthy translated then
      io_ret (translated,
              [10] ++ u "Prompt (ru→en): " ++ prompt f ++ u " → "
                ++ format W translated)
    else io_ret (PStr (prompt f), [10] ++ u "Prompt: " ++ prompt f)
  else io_ret (PStr (prompt f), []).

(** Lines 277-291: the backend call and the reply. *)
Definition submit_and_reply (image_bytes mask_bytes : list Z)
    (prompt_to_send : pyval) (caption_prompt : str) : io unit :=
  guarded
    (call_stability_inpaint W C image_bytes mask_bytes
       (py_or prompt_to_send (PStr (u "inpaint"))))
    (fun e => u "❌ Ошибка Stability: " ++ exn_text W e) (fun result_png =>
  let caption := u "Готово ✨" ++ caption_prompt in
  io_try (emit (EvReplyPhoto result_png caption)
            (reply_photo W result_png caption))
    (fun e => emit
       (EvReplyText (u "❌ Ошибка отправки результата: " ++ exn_text W e))
       (Ok tt))).

(** Lines 237-291: the stages that follow validation. *)
Definition after_validation (f : fields) : io unit :=
  guarded (lift (build_mask f))
    (fun e => u "❌ Ошибка сборки маски: " ++ exn_text W e) (fun mask_bytes =>
  guarded (load_source f)
    (fun e => u "❌ Ошибка загрузки исходного изображения: " ++ exn_text W e)
    (fun image_bytes =>
  pc <- translate_prompt f ;;
  let '(prompt_to_send, caption_prompt) := pc in
  submit_and_reply image_bytes mask_bytes prompt_to_send caption_prompt)).

(** The handler, for the text [wad] of [msg.web_app_data.data]
    ([None] when the message carries no web-app data). *)
Definition webapp_data (LAST_IMAGE_URL : gmap Z str) (uid : Z)
    (wad : option str) : io unit :=
  match wad with
  | None | Some [] => io_ret tt
  | Some d =>
    guarded (lift (json_loads W d))
      (fun e => u "❌ Ошибка JSON: " ++ exn_text W e) (fun data =>
    f <- lift (read_fields LAST_IMAGE_URL uid data) ;;
    if missing f then emit (EvReplyText msg_missing) (Ok tt)
    else after_validation f)
  end.

(** [save_tg_file_to_uploads]: the stored path and the public URL of an
    upload; the download, the clock and the random file name are the
    world's. *)
Definition save_tg_file_to_uploads (file_id : str) : io (str * str) :=
  name <- emit (EvSaveUpload file_id) (upload_name W file_id) ;;
  io_ret (os_path_join UPLOAD_DIR name, PUBLIC_BASE_URL C ++ u "/uploads/" ++ name).

(** [got_image], for the file id of the photo or image document of the
    message ([None] when it has neither); the result is the store after
    the handler. *)
Definition got_image (LAST_IMAGE_URL : gmap Z str) (uid : Z)
    (file_id : option str) : io (gmap Z str) :=
  match file_id with
  | None =>
    emit (EvReplyText (u "Пришли изображение в виде фото или документа."))
      (Ok LAST_IMAGE_URL)
  | Some fid =>
    saved <- save_tg_file_to_uploads fid ;;
    let '(local_path, public_url) := saved in
    emit (EvReplyText (u "✅ Изображение загружено. Нажми «🖌 Открыть кисть»."))
      (Ok (<[uid := public_url]> LAST_IMAGE_URL))
  end.

End Orchestrator.

(** ** Notions the properties are stated with *)

(** Bit [i] of a byte sequence in consumption order: byte by byte, most
    significant bit first; [false] past the end of the input. *)
Definition input_bit (raw : list Z) (i : nat) : bool :=
  match raw !! (i / 8)%nat with
  | Some b => Z.testbit b (7 - Z.of_nat (i mod 8))
  | None => false
  end.

(** The pixel value of a selection bit. *)
Definition pixel_of_bool (b : bool) : Z := if b then 255 else 0.

(** A pixel of a binary mask. *)
Definition binary (p : Z) : Prop := p = 0 \/ p = 255.

(** Modelled from the spec: the packer of the client surface, which is not
    part of [bot.py].  "A bit-per-pixel binary image serialized MSB-first
    into a byte sequence", [ceil(n/8)] bytes for [n] pixels; pixel [8k + j]
    is bit [7 - j] of byte [k], and the bits after the last pixel are 0. *)
Definition pack_byte (bits : list bool) (k : nat) : Z :=
  fold_left
    (fun acc j => 2 * acc + Z.b2z (default false (bits !! (8 * k + j)%nat)))
    (seq 0 8) 0.

Definition pack (bits : list bool) : list Z :=
  map (pack_byte bits) (seq 0 ((length bits + 7) / 8)).

(** The pixels the decoder produces from a whole byte sequence, before
    they are cut or padded to the target size. *)
Definition bitstream (raw : list Z) : list Z :=
  flat_map (fun b => map (pixel_of_bit b) bit_range) raw.

(** The ways a provider call can fail to give a translation: network
    error, a status other than 200, a body that is not JSON, JSON of the
    wrong shape, an empty result.  [extract] reads the translation from the
    parsed body. *)
Inductive provider_fails (extract : pyval -> result pyval)
  : result response -> Prop :=
  | fails_network (e : exn) :
      provider_fails extract (Raise e)
  | fails_status (r : response) :
      status r <> 200 -> provider_fails extract (Ok r)
  | fails_not_json (r : response) (e : exn) :
      status r = 200 -> resp_json r = Raise e -> provider_fails extract (Ok r)
  | fails_shape (r : response) (j : pyval) (e : exn) :
      status r = 200 -> resp_json r = Ok j -> extract j = Raise e ->
      provider_fails extract (Ok r)
  | fails_empty (r : response) (j tr : pyval) :
      status r = 200 -> resp_json r = Ok j -> extract j = Ok tr ->
      truthy tr = false -> provider_fails extract (Ok r).

(** The network calls the chain makes for DeepL: one when a key is
    configured, none otherwise. *)
Definition deepl_calls (C : Config) (text : str) : list event :=
  if truthy (PStr (DEEPL_API_KEY C)) then [EvPost (deepl_request C text)] else [].


(** ** Concrete worlds, configurations and payloads *)

Definition ex_config : Config :=
  mkConfig (u "sk-test") (u "https://funfishinggame.store") (u "deepl-key")
    (u "https://api-free.deepl.com/v2/translate") (u "https://libretranslate.com") [].

(** A response with status 200 and the given content type, JSON and bytes. *)
Definition response_200 (ctype : str) (j : result pyval) (data : list Z)
  : response :=
  mkResponse 200 (Some ctype) (Ok (u "ok")) j (Ok data).

(** An error page: the status and a text body. *)
Definition response_error (code : Z) (txt : str) : response :=
  mkResponse code (Some (u "text/html")) (Ok txt) (Raise ValueError) (Ok []).

(** The network seen by the bot: one answer per service. *)
Definition ex_post (deepl_answer libre_answer stability_answer : result response)
    (rq : request) : result response :=
  if bool_decide (req_url rq = stability_url) then stability_answer
  else if bool_decide (req_url rq = DEEPL_API_URL ex_config) then deepl_answer
  else libre_answer.

(** A world in which [json.loads] gives [data], the bitmask decodes to the
    single byte [0b11000000], no upload is on disk and the source image is
    fetched over the network. *)
Definition ex_world (data : pyval) (post : request -> result response) : World :=
  mkWorld
    (fun _ => Ok data)
    (fun v => match v with PStr _ => Ok [192] | _ => Raise TypeError end)
    (fun _ => Raise ValueError)
    (fun im => Ok (pixels im))
    nearest_center
    (fun _ => false)
    (fun _ => Raise (ClientError []))
    (fun _ => Ok (response_200 (u "image/jpeg") (Raise ValueError) [1; 2; 3]))
    post
    (fun _ _ => Ok tt)
    (fun _ => Ok (u "1_ab.jpg"))
    (fun _ => u "error")
    (fun _ => u "?").

Definition backend_ok : result response :=
  Ok (response_200 (u "image/png") (Raise ValueError) [7; 7]).

Definition service_down : result response := Raise (ClientError (u "down")).

Definition deepl_cat : result response :=
  Ok (response_200 (u "application/json")
        (Ok (PDict [(u "translations", PList [PDict [(u "text", PStr (u "cat"))]])]))
        []).

Definition libre_cat : result response :=
  Ok (response_200 (u "application/json")
        (Ok (PDict [(u "translatedText", PStr (u "cat"))])) []).

(** The payload fields other than [img] and [prompt], all present. *)
Definition ex_sizes : list (str * pyval) :=
  [(u "nat_w", PInt 4); (u "nat_h", PInt 4); (u "bm_w", PInt 2); (u "bm_h", PInt 2);
   (u "bbox", PList [PInt 1; PInt 1; PInt 2; PInt 2]);
   (u "bitmask", PStr (u "wA=="))].

(** A payload without [img] and without [prompt]. *)
Definition payload_no_img : pyval := PDict ex_sizes.

(** A payload with [img] whose bitmask is absent. *)
Definition payload_no_mask : pyval :=
  PDict [(u "img", PStr (u "https://example.org/a.png"));
         (u "nat_w", PInt 4); (u "nat_h", PInt 4);
         (u "bm_w", PInt 2); (u "bm_h", PInt 2)].

(** A payload with [img] and a bitmask whose [nat_w] is 0. *)
Definition payload_zero_width : pyval :=
  PDict [(u "img", PStr (u "https://example.org/a.png"));
         (u "nat_w", PInt 0); (u "nat_h", PInt 4);
         (u "bm_w", PInt 2); (u "bm_h", PInt 2);
         (u "bitmask", PStr (u "wA=="))].

(** One user with a stored image. *)
Definition ex_store : gmap Z str :=
  {[ 7 := u "https://funfishinggame.store/uploads/1_ab.jpg" ]}.

(** An error body of 500 characters. *)
Definition long_body : str := replicate 500 (cp "x").

(** The world of a user whose translators are down and whose backend
    answers with an image, sending the payload [data]. *)
Definition ex_run (data : pyval) : World :=
  ex_world data (ex_post service_down service_down backend_ok).

(** The 4 x 4 mask of [ex_sizes], as [ex_world] encodes it. *)
Definition ex_mask : list Z :=
  [0; 0; 0; 0;  0; 255; 255; 0;  0; 0; 0; 0;  0; 0; 0; 0].

(** DeepL answering with a translation that is one space. *)
Definition deepl_blank : result response :=
  Ok (response_200 (u "application/json")
        (Ok (PDict [(u "translations", PList [PDict [(u "text", PStr (u " "))]])]))
        []).

(** A payload without [img] whose prompt is Russian. *)
Definition payload_cat : pyval :=
  PDict ((u "prompt", PStr (u "кот")) :: ex_sizes).

(** A message sent back to the user. *)
Definition is_reply (ev : event) : Prop :=
  match ev with
  | EvReplyText _ | EvReplyPhoto _ _ => True
  | _ => False
  end.

(** An event other than a text message. *)
Definition not_reply_text (ev : event) : Prop :=
  match ev with
  | EvReplyText _ => False
  | _ => True
  end.

(** The all-zero canvas [Image.new("L", (w, h), 0)] of a non-negative size. *)
Definition blank_canvas (w h : Z) : Image :=
  mkImage w h (replicate (Z.to_nat (w * h)) 0).

(** ** Configuration: lines 19-32 *)

(** [os.getenv(k, dflt)], over the environment as [load_dotenv()] left it. *)
Definition getenv (env : gmap str str) (k dflt : str) : str :=
  default dflt (env !! k).

Fixpoint lstrip_char (q : Z) (s : str) : str :=
  match s with
  | c :: s' => if c =? q then lstrip_char q s' else s
  | [] => []
  end.

(** [s.rstrip(q)] for a single character [q] *)
Definition rstrip_char (q : Z) (s : str) : str := rev (lstrip_char q (rev s)).

Record Settings : Type := mkSettings {
  BOT_TOKEN : str;
  settings_config : Config
}.

(** The module-level configuration; [None] is the [SystemExit] of line 32. *)
Definition load_settings (env : gmap str str) : option Settings :=
  let bot_token := getenv env (u "BOT_TOKEN") [] in
  let stability_api_key := getenv env (u "STABILITY_API_KEY") [] in
  let public_base_url :=
    rstrip_char (cp "/")
      (getenv env (u "PUBLIC_BASE_URL") (u "https://funfishinggame.store")) in
  let deepl_api_key := strip (getenv env (u "DEEPL_API_KEY") []) in
  let deepl_api_url :=
    strip (getenv env (u "DEEPL_API_URL")
             (u "https://api-free.deepl.com/v2/translate")) in
  let libretranslate_url :=
    rstrip_char (cp "/")
      (getenv env (u "LIBRETRANSLATE_URL") (u "https://libretranslate.com")) in
  let libretranslate_api_key := strip (getenv env (u "LIBRETRANSLATE_API_KEY") []) in
  if negb (truthy (PStr bot_token)) || negb (truthy (PStr stability_api_key))
  then None
  else Some (mkSettings bot_token
               (mkConfig stability_api_key public_base_url deepl_api_key
                  deepl_api_url libretranslate_url libretranslate_api_key)).

(** ** The WebApp button: [reply_wa], [brush_cmd], lines 205-207 of [got_image] *)

(** A reply keyboard of one WebApp button. *)
Record ReplyKeyboardMarkup : Type := mkKeyboard {
  button_text : str;
  web_app_url : str;
  resize_keyboard : bool;
  one_time_keyboard : bool
}.

Definition reply_wa (url : str) : ReplyKeyboardMarkup :=
  mkKeyboard (u "🖌 Открыть кисть") url true true.

(** [brush_cmd]: the text and the keyboard it replies with, [ver] being
    [int(time.time())]. *)
Definition brush_cmd (C : Config) (LAST_IMAGE_URL : gmap Z str) (uid ver : Z)
  : str * ReplyKeyboardMarkup :=
  let last := LAST_IMAGE_URL !! uid in
  let wa_url :=
    PUBLIC_BASE_URL C ++ u "/index.html?v=" ++ dec ver
    ++ match last with
       | Some url => if truthy (PStr url) then u "&img=" ++ url else []
       | None => []
       end in
  (u "Открой WebApp:", reply_wa wa_url).

(** The keyboard [got_image] sends with its confirmation. *)
Definition got_image_markup (C : Config) (ver : Z) (public_url : str)
  : ReplyKeyboardMarkup :=
  reply_wa (PUBLIC_BASE_URL C ++ u "/index.html?v=" ++ dec ver
              ++ u "&img=" ++ public_url).

(** ** More concrete inputs *)

(** The composited mask of the end-to-end example. *)
Definition ex_full : Image :=
  image_of_fun 10 10 (fun i j =>
    if (2 <=? i) && (i <? 4) && (j =? 2) then 255 else 0).

(** The 2 x 2 mask decoded from the byte [0b11000000]. *)
Definition ex_small : Image := mkImage 2 2 [255; 255; 0; 0].

(** The fields read from [payload_no_img] by the user of [ex_store]. *)
Definition ex_fields : fields :=
  mkFields (PStr (u "https://funfishinggame.store/uploads/1_ab.jpg")) []
    4 4 2 2 (PList [PInt 1; PInt 1; PInt 2; PInt 2]) (PStr (u "wA==")).

(** A payload with every field but the bounding box, and its fields. *)
Definition payload_no_bbox : pyval :=
  PDict [(u "img", PStr (u "https://example.org/a.png"));
         (u "nat_w", PInt 4); (u "nat_h", PInt 4);
         (u "bm_w", PInt 2); (u "bm_h", PInt 2);
         (u "bitmask", PStr (u "wA=="))].

Definition fields_no_bbox : fields :=
  mkFields (PStr (u "https://example.org/a.png")) []
    4 4 2 2 (PList [PInt 0; PInt 0; PInt 0; PInt 0]) (PStr (u "wA==")).

(** A payload whose bitmap width is negative, and its fields. *)
Definition payload_negative : pyval :=
  PDict [(u "img", PStr (u "https://example.org/a.png"));
         (u "nat_w", PInt 4); (u "nat_h", PInt 4);
         (u "bm_w", PInt (-2)); (u "bm_h", PInt 2);
         (u "bitmask", PStr (u "wA=="))].

Definition fields_negative : fields :=
  mkFields (PStr (u "https://example.org/a.png")) []
    4 4 (-2) 2 (PList [PInt 0; PInt 0; PInt 0; PInt 0]) (PStr (u "wA==")).


(** The events of fetching the stored image of [ex_store]. *)
Definition ex_fetch : list event :=
  [EvExists (UPLOAD_DIR ++ u "/1_ab.jpg");
   EvGet (u "https://funfishinggame.store/uploads/1_ab.jpg")].

(** ** [save_tg_file_to_uploads] in full: lines 50-75 *)

(** What the function takes from outside, besides the network of [World]:
    the Telegram file path of a file id, the clock, the random name, the
    path and case functions of the library, the WebP to PNG conversion
    and the write to disk. *)
Record UploadEnv : Type := mkUploadEnv {
  get_file_path : str -> result str;         (* (await bot.get_file(id)).file_path *)
  now : Z;                                   (* int(time.time()) *)
  uuid_hex : str;                            (* uuid4().hex *)
  splitext_ext : str -> str;                 (* os.path.splitext(p)[1] *)
  lower : str -> str;                        (* s.lower() *)
  webp_to_png : list Z -> result (list Z);   (* Image.open, convert, save as PNG *)
  write_file : str -> list Z -> result unit  (* open(p, "wb").write(data) *)
}.

(** The part of [s] after its first [q], if [q] occurs. *)
Fixpoint after_first (q : Z) (s : str) : option str :=
  match s with
  | [] => None
  | c :: s' => if c =? q then Some s' else after_first q s'
  end.

(** [s.rsplit(q, 1)[0]] for a single character [q] *)
Definition rsplit1_head (q : Z) (s : str) : str :=
  match after_first q (rev s) with
  | Some r => rev r
  | None => s
  end.

(** Where the file is fetched from. *)
Definition tg_file_url (bot_token file_path : str) : str :=
  if startswith file_path (u "http") then file_path
  else u "https://api.telegram.org/file/bot" ++ bot_token ++ u "/" ++ file_path.

(** The extension of the stored file: [splitext(...)[1].lower() or ".jpg"]. *)
Definition upload_ext (E : UploadEnv) (file_path : str) : str :=
  let ext := lower E (splitext_ext E file_path) in
  if truthy (PStr ext) then ext else u ".jpg".

(** The function, returning with the pair of the source the bytes it
    wrote to [local_path]. *)
Definition store_tg_file (W : World) (C : Config) (E : UploadEnv)
    (bot_token file_id : str) : io ((str * str) * list Z) :=
  file_path <- lift (get_file_path E file_id) ;;
  let tg_url := tg_file_url bot_token file_path in
  let ext := upload_ext E file_path in
  let name := dec (now E) ++ u "_" ++ uuid_hex E ++ ext in
  let local_path := os_path_join UPLOAD_DIR name in
  data <- download_bytes W tg_url ;;
  let '(data, name, local_path) :=
    if bool_decide (ext = u ".webp") then
      match webp_to_png E data with
      | Ok png =>
        let name' := rsplit1_head (cp ".") name ++ u ".png" in
        (png, name', os_path_join UPLOAD_DIR name')
      | Raise _ => (data, name, local_path)
      end
    else (data, name, local_path) in
  lift (write_file E local_path data) ;;;
  io_ret ((local_path, PUBLIC_BASE_URL C ++ u "/uploads/" ++ name), data).

(** The stored name without its extension: time stamp and random part. *)
Definition upload_stem (E : UploadEnv) : str := dec (now E) ++ u "_" ++ uuid_hex E.

(** An upload environment for a file path, a conversion and a disk that
    takes every write. *)
Definition ex_upload_env (file_path ext : str) (conv : result (list Z))
  : UploadEnv :=
  mkUploadEnv (fun _ => Ok file_path) 1700000000 (u "ab12") (fun _ => ext)
    (fun s => s) (fun _ => conv) (fun _ _ => Ok tt).

(** DeepL answering status 200 with a body of the right shape whose
    [text] is the number 5, not a string. *)
Definition deepl_number : result response :=
  Ok (response_200 (u "application/json")
        (Ok (PDict [(u "translations", PList [PDict [(u "text", PInt 5)]])]))
        []).

(** ** The handler with text replies that can fail

    Every [msg.reply_text] of [webapp_data] (lines 221, 234, 245, 262,
    281, 291) stands outside the [try] blocks: when Telegram refuses the
    message, its exception leaves the handler.  The definitions below are
    those of the handler with this made explicit; [reply_text] gives the
    outcome of sending each text. *)

Section Replying.

Context (W : World) (C : Config).

Variable reply_text : str -> result unit.

(** [await msg.reply_text(text)] *)
Definition send_text (text : str) : io unit :=
  emit (EvReplyText text) (reply_text text).

(** [try: m  except Exception as e: await msg.reply_text(text e); return],
    followed by the rest of the handler. *)
Definition guarded_replying {A : Type} (m : io A) (text : exn -> str)
    (rest : A -> io unit) : io unit :=
  match m with
  | (evs, Ok a) => let '(evs', r) := rest a in (evs ++ evs', r)
  | (evs, Raise e) => let '(evs', r) := send_text (text e) in (evs ++ evs', r)
  end.

(** Lines 277-291 *)
Definition submit_and_reply_replying (image_bytes mask_bytes : list Z)
    (prompt_to_send : pyval) (caption_prompt : str) : io unit :=
  guarded_replying
    (call_stability_inpaint W C image_bytes mask_bytes
       (py_or prompt_to_send (PStr (u "inpaint"))))
    (fun e => u "❌ Ошибка Stability: " ++ exn_text W e) (fun result_png =>
  let caption := u "Готово ✨" ++ caption_prompt in
  io_try (emit (EvReplyPhoto result_png caption)
            (reply_photo W result_png caption))
    (fun e => send_text (u "❌ Ошибка отправки результата: " ++ exn_text W e))).

(** Lines 237-291 *)
Definition after_validation_replying (f : fields) : io unit :=
  guarded_replying (lift (build_mask W f))
    (fun e => u "❌ Ошибка сборки маски: " ++ exn_text W e) (fun mask_bytes =>
  guarded_replying (load_source W C f)
    (fun e => u "❌ Ошибка загрузки исходного изображения: " ++ exn_text W e)
    (fun image_bytes =>
  pc <- translate_prompt W C f ;;
  let '(prompt_to_send, caption_prompt) := pc in
  submit_and_reply_replying image_bytes mask_bytes prompt_to_send caption_prompt)).

(** Lines 209-291 *)
Definition webapp_data_replying (LAST_IMAGE_URL : gmap Z str) (uid : Z)
    (wad : option str) : io unit :=
  match wad with
  | None | Some [] => io_ret tt
  | Some d =>
    guarded_replying (lift (json_loads W d))
      (fun e => u "❌ Ошибка JSON: " ++ exn_text W e) (fun data =>
    f <- lift (read_fields W LAST_IMAGE_URL uid data) ;;
    if missing f then send_text msg_missing
    else after_validation_replying f)
  end.

End Replying.

(** What the handler returns when [ev] was its last event: the outcome of
    the text message, or success after the photo. *)
Definition outcome_of_last (reply_text : str -> result unit) (ev : event)
  : result unit :=
  match ev with
  | EvReplyText t => reply_text t
  | _ => Ok tt
  end.

(** A Telegram that refuses every text message. *)
Definition refuse_text (_ : str) : result unit := Raise (ClientError (u "flood")).

(** * BitmaskDecoder *)

Lemma pixel_of_bit_testbit b bit :
  0 <= bit -> pixel_of_bit b bit = pixel_of_bool (Z.testbit b bit).
Proof.
  intros Hbit. unfold pixel_of_bit, pixel_of_bool.
  rewrite Z.testbit_odd.
  change 1 with (Z.ones 1). rewrite Z.land_ones by lia.
  change (2 ^ 1) with 2. rewrite Zmod_odd.
  destruct (Z.odd (Z.shiftr b bit)); reflexivity.
Qed.

Lemma setitem_middle (done rest : list Z) (r v : Z) :
  setitem (done ++ r :: rest) (Z.of_nat (length done)) v = Ok (done ++ v :: rest).
Proof.
  unfold setitem. rewrite length_app. simpl length.
  replace ((0 <=? Z.of_nat (length done)) &&
           (Z.of_nat (length done) <? Z.of_nat (length done + S (length rest))))
    with true by (symmetry; apply andb_true_intro; split; [apply Z.leb_le | apply Z.ltb_lt]; lia).
  rewrite Nat2Z.id. f_equal.
  rewrite insert_app_r_alt by lia. rewrite Nat.sub_diag. reflexivity.
Qed.

(** The inner loop writes the pixels of its bits over the start of the
    part of the buffer not yet filled. *)
Lemma unpack_bits_app (b : Z) (bits : list Z) : forall (done rest : list Z),
  unpack_bits (Z.of_nat (length (done ++ rest))) b bits
      (done ++ rest, Z.of_nat (length done))
  = Ok (done ++ take (length rest) (map (pixel_of_bit b) bits)
             ++ drop (length bits) rest,
        Z.of_nat (length done + Nat.min (length bits) (length rest))).
Proof.
  induction bits as [|bit bits IH]; intros done rest.
  - simpl. rewrite take_nil, drop_0, Nat.add_0_r. reflexivity.
  - destruct rest as [|r rest].
    + simpl. rewrite app_nil_r.
      replace (Z.of_nat (length done) >=? Z.of_nat (length done)) with true
        by (symmetry; apply Z.geb_le; lia).
      rewrite Nat.add_0_r. reflexivity.
    + cbn [unpack_bits].
      replace (Z.of_nat (length done) >=? Z.of_nat (length (done ++ r :: rest)))
        with false
        by (symmetry; rewrite Z.geb_leb; apply Z.leb_gt; rewrite length_app; simpl; lia).
      rewrite setitem_middle. cbn [mbind result_bind].
      specialize (IH (done ++ [pixel_of_bit b bit]) rest).
      rewrite <- !app_assoc in IH. simpl in IH.
      replace (Z.of_nat (length (done ++ r :: rest)))
        with (Z.of_nat (length (done ++ pixel_of_bit b bit :: rest)))
        by (rewrite !length_app; reflexivity).
      replace (Z.of_nat (length done) + 1)
        with (Z.of_nat (length (done ++ [pixel_of_bit b bit])))
        by (rewrite length_app; simpl; lia).
      rewrite IH. simpl. do 2 f_equal.
      rewrite length_app. simpl. lia.
Qed.

Lemma length_bitstream raw : length (bitstream raw) = (8 * length raw)%nat.
Proof.
  induction raw as [|b raw IH]; [reflexivity|].
  change (bitstream (b :: raw))
    with (map (pixel_of_bit b) bit_range ++ bitstream raw).
  rewrite length_app, length_map, IH. simpl length. lia.
Qed.

Lemma unpack_bytes_app (raw : list Z) : forall (done rest : list Z),
  unpack_bytes (Z.of_nat (length (done ++ rest))) raw
      (done ++ rest, Z.of_nat (length done))
  = Ok (done ++ take (length rest) (bitstream raw)
             ++ drop (length (bitstream raw)) rest,
        Z.of_nat (length done + Nat.min (length (bitstream raw)) (length rest))).
Proof.
  induction raw as [|b raw IH]; intros done rest.
  - simpl. rewrite take_nil, Nat.add_0_r. reflexivity.
  - cbn [unpack_bytes]. rewrite unpack_bits_app. cbn [mbind result_bind snd].
    change (bitstream (b :: raw))
      with (map (pixel_of_bit b) bit_range ++ bitstream raw).
    rewrite (length_app (map (pixel_of_bit b) bit_range) (bitstream raw)).
    rewrite !length_map. change (length bit_range) with 8%nat.
    destruct (decide (length rest <= 8)%nat) as [Hle|Hgt].
    + replace (Z.of_nat (length done + 8 `min` length rest)
               >=? Z.of_nat (length (done ++ rest))) with true
        by (symmetry; apply Z.geb_le; rewrite length_app; lia).
      rewrite take_app_le by (rewrite length_map; change (length bit_range) with 8%nat; lia).
      rewrite !drop_ge by lia.
      do 3 f_equal. lia.
    + replace (Z.of_nat (length done + 8 `min` length rest)
               >=? Z.of_nat (length (done ++ rest))) with false
        by (symmetry; rewrite Z.geb_leb; apply Z.leb_gt; rewrite length_app; lia).
      rewrite take_ge by (rewrite length_map; change (length bit_range) with 8%nat; lia).
      specialize (IH (done ++ map (pixel_of_bit b) bit_range) (drop 8 rest)).
      rewrite <- app_assoc in IH.
      replace (Z.of_nat (length (done ++ rest)))
        with (Z.of_nat (length (done ++ map (pixel_of_bit b) bit_range ++ drop 8 rest)))
        by (rewrite !length_app, length_map, length_drop; change (length bit_range) with 8%nat; lia).
      replace (Z.of_nat (length done + 8 `min` length rest))
        with (Z.of_nat (length (done ++ map (pixel_of_bit b) bit_range)))
        by (rewrite !length_app, length_map; change (length bit_range) with 8%nat; lia).
      rewrite IH. rewrite <- !app_assoc.
      rewrite take_app_ge by (rewrite length_map; change (length bit_range) with 8%nat; lia).
      rewrite length_map, length_drop, drop_drop.
      change (length bit_range) with 8%nat.
      rewrite <- !app_assoc. do 3 f_equal.
      rewrite length_app, length_map. change (length bit_range) with 8%nat. lia.
Qed.

Lemma input_bit_first b raw (i : nat) :
  (i < 8)%nat -> input_bit (b :: raw) i = Z.testbit b (7 - Z.of_nat i).
Proof.
  intros Hi. unfold input_bit.
  rewrite Nat.div_small, Nat.mod_small by lia. reflexivity.
Qed.

Lemma input_bit_later b raw (i : nat) :
  input_bit (b :: raw) (8 + i) = input_bit raw i.
Proof.
  assert (Hd : ((8 + i) / 8 = S (i / 8))%nat).
  { replace (8 + i)%nat with (1 * 8 + i)%nat by lia.
    rewrite Nat.div_add_l by lia. reflexivity. }
  assert (Hm : ((8 + i) mod 8 = i mod 8)%nat).
  { replace (8 + i)%nat with (i + 1 * 8)%nat by lia. apply Nat.Div0.mod_add. }
  unfold input_bit. rewrite Hd, Hm. reflexivity.
Qed.

Lemma input_bit_past raw (i : nat) :
  (8 * length raw <= i)%nat -> input_bit raw i = false.
Proof.
  intros Hi. unfold input_bit.
  rewrite lookup_ge_None_2; [reflexivity|].
  apply Nat.div_le_lower_bound; lia.
Qed.

Lemma bitstream_lookup raw : forall i : nat,
  (i < 8 * length raw)%nat ->
  bitstream raw !! i = Some (pixel_of_bool (input_bit raw i)).
Proof.
  induction raw as [|b raw IH]; intros i Hi; [simpl in Hi; lia|].
  change (bitstream (b :: raw))
    with (map (pixel_of_bit b) bit_range ++ bitstream raw).
  destruct (decide (i < 8)%nat) as [Hlt|Hge].
  - rewrite lookup_app_l by (rewrite length_map; simpl; lia).
    rewrite input_bit_first by lia.
    do 8 (destruct i as [|i];
      [simpl; rewrite pixel_of_bit_testbit by lia; reflexivity|]).
    lia.
  - rewrite lookup_app_r by (rewrite length_map; simpl; lia).
    rewrite length_map. change (length bit_range) with 8%nat.
    replace i with (8 + (i - 8))%nat at 2 by lia.
    rewrite input_bit_later. apply IH. simpl length in Hi. lia.
Qed.

Lemma unpack_raw_pixels (raw : list Z) (w h : Z) :
  0 <= w -> 0 <= h ->
  exists img, unpack_raw raw w h = Ok img
    /\ width img = w /\ height img = h
    /\ length (pixels img) = Z.to_nat (w * h)
    /\ forall i : nat, (i < Z.to_nat (w * h))%nat ->
         pixels img !! i = Some (pixel_of_bool (input_bit raw i)).
Proof.
  intros Hw Hh.
  assert (Ht : 0 <= w * h) by nia.
  set (n := Z.to_nat (w * h)).
  set (bs := bitstream raw).
  set (out := take n bs ++ replicate (n - length bs) 0).
  assert (Hlen : length out = n).
  { unfold out. rewrite length_app, length_take, length_replicate. lia. }
  exists (mkImage w h out).
  split; [|repeat split; try assumption].
  - unfold unpack_raw, bytearray.
    replace (w * h <? 0) with false by (symmetry; apply Z.ltb_ge; lia).
    cbn [mbind result_bind].
    pose proof (unpack_bytes_app raw [] (replicate n 0)) as Hloop.
    rewrite app_nil_l, length_replicate in Hloop.
    unfold n in Hloop at 1. rewrite Z2Nat.id in Hloop by lia.
    simpl length in Hloop. change (Z.of_nat 0) with 0 in Hloop.
    fold n. rewrite Hloop. cbn [mbind result_bind fst].
    rewrite drop_replicate. fold bs. fold out.
    unfold Image_frombytes.
    replace ((w <? 0) || (h <? 0)) with false
      by (symmetry; apply orb_false_intro; apply Z.ltb_ge; lia).
    rewrite app_nil_l, Hlen.
    replace (Z.of_nat n <? w * h) with false
      by (symmetry; apply Z.ltb_ge; unfold n; lia).
    fold n. rewrite take_ge by lia. reflexivity.
  - intros i Hi. cbn [pixels]. unfold out.
    destruct (decide (i < length bs)%nat) as [Hlt|Hge].
    + rewrite lookup_app_l by (rewrite length_take; lia).
      rewrite lookup_take_lt by lia.
      apply bitstream_lookup. unfold bs in Hlt. rewrite length_bitstream in Hlt. lia.
    + rewrite lookup_app_r by (rewrite length_take; lia).
      rewrite length_take.
      rewrite input_bit_past
        by (unfold bs in Hge; rewrite length_bitstream in Hge; lia).
      apply lookup_replicate_2. lia.
Qed.

Lemma image_eq (a b : Image) :
  width a = width b -> height a = height b -> pixels a = pixels b -> a = b.
Proof. destruct a, b; simpl; intros; subst; reflexivity. Qed.

(** C1: for a target size [w] x [h] and an input that decodes to the bytes
    [raw], the decoder returns a bitmap of exactly [w*h] pixels; pixel [i]
    is 255 when bit [i] of [raw] (byte by byte, most significant bit first)
    is 1 and 0 otherwise, for [i < min (w*h) (8 * length raw)]; a pixel at
    or past [8 * length raw] is 0, short input being no error; and any
    input with the same first [w*h] bits decodes to the same bitmap. *)
Theorem unpack_bitmask_spec {B : Type} (b64decode : B -> result (list Z))
    (b64 : B) (raw : list Z) (w h : Z) :
  0 <= w -> 0 <= h -> b64decode b64 = Ok raw ->
  exists img, _unpack_bitmask_to_L b64decode b64 w h = Ok img
    /\ width img = w /\ height img = h
    /\ Z.of_nat (length (pixels img)) = w * h
    /\ (forall i : nat,
          Z.of_nat i < Z.min (w * h) (8 * Z.of_nat (length raw)) ->
          pixels img !! i = Some (if input_bit raw i then 255 else 0))
    /\ (forall i : nat,
          Z.of_nat i < w * h -> 8 * Z.of_nat (length raw) <= Z.of_nat i ->
          pixels img !! i = Some 0)
    /\ (forall (b64' : B) (raw' : list Z),
          b64decode b64' = Ok raw' ->
          (forall i : nat, Z.of_nat i < w * h ->
             input_bit raw' i = input_bit raw i) ->
          _unpack_bitmask_to_L b64decode b64' w h = Ok img).
Proof.
  intros Hw Hh Hraw.
  destruct (unpack_raw_pixels raw w h Hw Hh) as (img & Himg & Hwd & Hht & Hlen & Hpx).
  exists img. unfold _unpack_bitmask_to_L. rewrite Hraw. cbn [mbind result_bind].
  assert (Ht : 0 <= w * h) by nia.
  repeat split; try assumption.
  - lia.
  - intros i Hi. rewrite Hpx by lia. reflexivity.
  - intros i Hi Hpast. rewrite Hpx by lia.
    rewrite input_bit_past by lia. reflexivity.
  - intros b64' raw' Hraw' Hsame. rewrite Hraw'. cbn [mbind result_bind].
    destruct (unpack_raw_pixels raw' w h Hw Hh)
      as (img' & Himg' & Hwd' & Hht' & Hlen' & Hpx').
    rewrite Himg'. f_equal. apply image_eq; [congruence | congruence |].
    apply list_eq. intros i.
    destruct (decide (i < Z.to_nat (w * h))%nat) as [Hlt|Hge].
    + rewrite Hpx, Hpx' by assumption. rewrite Hsame by lia. reflexivity.
    + rewrite !lookup_ge_None_2 by lia. reflexivity.
Qed.

Lemma testbit_double (a : Z) (b : bool) (n : Z) :
  0 < n -> Z.testbit (2 * a + Z.b2z b) n = Z.testbit a (n - 1).
Proof.
  intros Hn. replace n with (Z.succ (n - 1)) at 1 by lia.
  apply Z.testbit_succ_r. lia.
Qed.

Lemma pack_byte_testbit (bits : list bool) (k j : nat) :
  (j < 8)%nat ->
  Z.testbit (pack_byte bits k) (7 - Z.of_nat j)
  = default false (bits !! (8 * k + j)%nat).
Proof.
  intros Hj. unfold pack_byte. cbn [fold_left seq].
  do 8 (destruct j as [|j];
    [ repeat (rewrite testbit_double by (cbn; lia));
      apply Z.testbit_0_r |]).
  lia.
Qed.

Lemma input_bit_pack (bits : list bool) (i : nat) :
  input_bit (pack bits) i = default false (bits !! i).
Proof.
  unfold input_bit, pack.
  rewrite list_lookup_fmap.
  destruct (decide (i / 8 < (length bits + 7) / 8)%nat) as [Hlt|Hge].
  - rewrite lookup_seq_lt by assumption. cbn [fmap option_fmap option_map].
    rewrite pack_byte_testbit by (apply Nat.mod_upper_bound; lia).
    f_equal. f_equal. pose proof (Nat.div_mod_eq i 8). lia.
  - rewrite lookup_seq_ge by lia. cbn.
    rewrite lookup_ge_None_2; [reflexivity|].
    pose proof (Nat.div_mod_eq i 8). pose proof (Nat.div_mod_eq (length bits + 7) 8).
    pose proof (Nat.mod_upper_bound i 8). pose proof (Nat.mod_upper_bound (length bits + 7) 8).
    lia.
Qed.

(** C7: packing a 0/1 pattern of [w*h] pixels most significant bit first
    (whatever follows the pattern in the last byte and after it) and
    decoding the bytes at size [w] x [h] gives the pattern back, 1 as 255
    and 0 as 0. *)
Theorem pack_unpack_roundtrip {B : Type} (b64decode : B -> result (list Z))
    (b64 : B) (pattern pad : list bool) (w h : Z) :
  0 <= w -> 0 <= h -> Z.of_nat (length pattern) = w * h ->
  b64decode b64 = Ok (pack (pattern ++ pad)) ->
  _unpack_bitmask_to_L b64decode b64 w h
  = Ok (mkImage w h (map pixel_of_bool pattern)).
Proof.
  intros Hw Hh Hlen Hraw.
  unfold _unpack_bitmask_to_L. rewrite Hraw. cbn [mbind result_bind].
  destruct (unpack_raw_pixels (pack (pattern ++ pad)) w h Hw Hh)
    as (img & Himg & Hwd & Hht & Hlenp & Hpx).
  rewrite Himg. f_equal. apply image_eq; [assumption | assumption |].
  cbn [pixels]. apply list_eq. intros i.
  destruct (decide (i < length pattern)%nat) as [Hlt|Hge].
  - rewrite Hpx by lia. rewrite input_bit_pack.
    rewrite lookup_app_l by assumption.
    rewrite list_lookup_fmap.
    destruct (lookup_lt_is_Some_2 pattern i Hlt) as [x Hx].
    rewrite Hx. reflexivity.
  - rewrite !lookup_ge_None_2; [reflexivity | rewrite length_map; lia | lia].
Qed.

(** * MaskCompositor *)

Lemma length_image_of_fun (w h : Z) (f : Z -> Z -> Z) :
  length (pixels (image_of_fun w h f)) = Z.to_nat (w * h).
Proof. unfold image_of_fun. cbn [pixels]. rewrite length_map. apply length_seqZ. Qed.

Lemma getpixel_image_of_fun (w h : Z) (f : Z -> Z -> Z) (i j : Z) :
  0 <= i < w -> 0 <= j < h ->
  getpixel (image_of_fun w h f) i j = Some (f i j).
Proof.
  intros Hi Hj. unfold getpixel, image_of_fun. cbn [width height pixels].
  replace ((0 <=? i) && (i <? w) && (0 <=? j) && (j <? h)) with true
    by (symmetry; repeat (apply andb_true_intro; split);
        first [apply Z.leb_le | apply Z.ltb_lt]; lia).
  rewrite list_lookup_fmap.
  rewrite lookup_seqZ_lt by (rewrite Z2Nat.id by nia; nia).
  cbn [fmap option_fmap option_map]. rewrite Z2Nat.id by nia.
  rewrite Z.add_0_l.
  replace ((j * w + i) mod w) with i
    by (rewrite Z.add_comm, Z.mod_add by lia; symmetry; apply Z.mod_small; lia).
  replace ((j * w + i) / w) with j
    by (rewrite Z.add_comm, Z.div_add by lia; rewrite Z.div_small by lia; lia).
  reflexivity.
Qed.

Lemma Forall_image_of_fun (P : Z -> Prop) (w h : Z) (f : Z -> Z -> Z) :
  (forall i j, P (f i j)) -> Forall P (pixels (image_of_fun w h f)).
Proof.
  intros Hf. unfold image_of_fun. cbn [pixels].
  apply Forall_fmap, Forall_forall. intros k _. apply Hf.
Qed.

Lemma sample_binary (im : Image) (i j : Z) :
  Forall binary (pixels im) -> binary (sample im i j).
Proof.
  intros Hbin. unfold sample, getpixel.
  destruct ((0 <=? i) && (i <? width im) && (0 <=? j) && (j <? height im));
    [|left; reflexivity].
  destruct (pixels im !! Z.to_nat (j * width im + i)) as [p|] eqn:Hp;
    [|left; reflexivity].
  exact (Forall_lookup_1 _ _ _ _ Hbin Hp).
Qed.

Lemma Image_new_ok (w h c : Z) :
  0 <= w -> 0 <= h ->
  Image_new w h c = Ok (mkImage w h (replicate (Z.to_nat (w * h)) c)).
Proof.
  intros Hw Hh. unfold Image_new.
  replace ((w <? 0) || (h <? 0)) with false
    by (symmetry; apply orb_false_intro; apply Z.ltb_ge; lia).
  reflexivity.
Qed.

Lemma getpixel_blank (w h c i j : Z) :
  0 <= i < w -> 0 <= j < h ->
  getpixel (mkImage w h (replicate (Z.to_nat (w * h)) c)) i j = Some c.
Proof.
  intros Hi Hj. unfold getpixel. cbn [width height pixels].
  replace ((0 <=? i) && (i <? w) && (0 <=? j) && (j <? h)) with true
    by (symmetry; repeat (apply andb_true_intro; split);
        first [apply Z.leb_le | apply Z.ltb_lt]; lia).
  apply lookup_replicate_2. nia.
Qed.

Lemma Image_paste_binary (canvas m : Image) (x y : Z) :
  Forall binary (pixels canvas) -> Forall binary (pixels m) ->
  Forall binary (pixels (Image_paste canvas m x y)).
Proof.
  intros Hc Hm. unfold Image_paste. apply Forall_image_of_fun. intros i j.
  destruct ((x <=? i) && (i <? x + width m) && (y <=? j) && (j <? y + height m));
    apply sample_binary; assumption.
Qed.

Lemma Image_paste_outside (canvas m : Image) (x y i j : Z) :
  0 <= i < width canvas -> 0 <= j < height canvas ->
  ~ (x <= i < x + width m /\ y <= j < y + height m) ->
  getpixel (Image_paste canvas m x y) i j = Some (sample canvas i j).
Proof.
  intros Hi Hj Hout. unfold Image_paste.
  rewrite getpixel_image_of_fun by assumption.
  replace ((x <=? i) && (i <? x + width m) && (y <=? j) && (j <? y + height m))
    with false; [reflexivity|].
  symmetry. apply not_true_is_false. intros Hc.
  apply andb_prop in Hc as [Hc H4]. apply andb_prop in Hc as [Hc H3].
  apply andb_prop in Hc as [H1 H2].
  apply Z.leb_le in H1, H3. apply Z.ltb_lt in H2, H4. lia.
Qed.

Lemma Image_resize_ok (nearest : Z -> Z -> Z -> Z) (im : Image) (w h : Z) :
  0 < w -> 0 < h ->
  exists m, Image_resize nearest im w h = Ok m
    /\ width m = w /\ height m = h
    /\ (Forall binary (pixels im) -> Forall binary (pixels m)).
Proof.
  intros Hw Hh. unfold Image_resize.
  replace ((w <? 1) || (h <? 1)) with false
    by (symmetry; apply orb_false_intro; apply Z.ltb_ge; lia).
  eexists. split; [reflexivity|]. repeat split.
  intros Hbin. apply Forall_image_of_fun. intros i j.
  apply sample_binary, Hbin.
Qed.

(** C2: for a canvas of non-negative size and a SmallMask of 0/255 pixels,
    the compositor returns a mask of the canvas size whose pixels are all 0
    or 255 and are 0 outside the bounding box; when the box starts right of
    or below the canvas, or has a non-positive side, or a clamped side is
    non-positive, the result is the all-zero canvas. *)
Theorem build_fullsize_mask_spec (nearest : Z -> Z -> Z -> Z)
    (nat_w nat_h x y w h : Z) (small_mask : Image) :
  0 <= nat_w -> 0 <= nat_h ->
  Forall binary (pixels small_mask) ->
  exists full,
    _build_fullsize_mask nearest nat_w nat_h [x; y; w; h] small_mask = Ok full
    /\ width full = nat_w /\ height full = nat_h
    /\ Z.of_nat (length (pixels full)) = nat_w * nat_h
    /\ Forall binary (pixels full)
    /\ (forall i j, 0 <= i < nat_w -> 0 <= j < nat_h ->
          ~ (x <= i < x + w /\ y <= j < y + h) ->
          getpixel full i j = Some 0)
    /\ (nat_w <= x \/ nat_h <= y \/ w <= 0 \/ h <= 0
        \/ Z.min w (nat_w - x) <= 0 \/ Z.min h (nat_h - y) <= 0 ->
        Image_new nat_w nat_h 0 = Ok full).
Proof.
  intros Hnw Hnh Hbin.
  assert (Harea : 0 <= nat_w * nat_h) by nia.
  unfold _build_fullsize_mask. cbn [unpack4 mbind result_bind].
  rewrite Image_new_ok by assumption. cbn [mbind result_bind].
  set (blank := mkImage nat_w nat_h (replicate (Z.to_nat (nat_w * nat_h)) 0)).
  assert (Hlen : Z.of_nat (length (pixels blank)) = nat_w * nat_h)
    by (cbn [blank pixels]; rewrite length_replicate; lia).
  assert (Hzero : Forall binary (pixels blank))
    by (cbn [blank pixels]; apply Forall_replicate; left; reflexivity).
  assert (Hpix : forall i j, 0 <= i < nat_w -> 0 <= j < nat_h ->
                   getpixel blank i j = Some 0)
    by (intros i j Hi Hj; apply getpixel_blank; assumption).
  destruct ((w >? 0) && (h >? 0) && (x <? nat_w) && (y <? nat_h)) eqn:Hin.
  - apply andb_prop in Hin as [Hin Hy]. apply andb_prop in Hin as [Hin Hx].
    apply andb_prop in Hin as [Hw Hh].
    apply Z.gtb_lt in Hw, Hh. apply Z.ltb_lt in Hx, Hy.
    replace ((Z.min w (nat_w - x) >? 0) && (Z.min h (nat_h - y) >? 0)) with true
      by (symmetry; apply andb_true_intro; split; apply Z.gtb_lt; lia).
    destruct (Image_resize_ok nearest small_mask
                (Z.min w (nat_w - x)) (Z.min h (nat_h - y)))
      as (m & Hm & Hmw & Hmh & Hmbin); [lia | lia |].
    rewrite Hm. cbn [mbind result_bind].
    exists (Image_paste blank m x y).
    split; [reflexivity|]. split; [reflexivity|]. split; [reflexivity|].
    split; [unfold Image_paste; rewrite length_image_of_fun; cbn [blank width height]; lia|].
    split; [apply Image_paste_binary; auto|].
    split.
    + intros i j Hi Hj Hout.
      rewrite Image_paste_outside by (cbn [blank width height]; lia).
      unfold sample. rewrite Hpix by assumption. reflexivity.
    + intros Hoff. lia.
  - exists blank. repeat split; try assumption.
    intros i j Hi Hj _. apply Hpix; assumption.
Qed.

(** * Submit edit request *)

Lemma stability_result_success (r : response) :
  status r = 200 ->
  contains (u "image/") (default [] (content_type r)) = true ->
  stability_result r = resp_read r.
Proof.
  intros Hst Hct. unfold stability_result.
  rewrite Hst, Hct. reflexivity.
Qed.

Lemma stability_result_status (r : response) (txt : str) :
  status r <> 200 -> resp_text r = Ok txt ->
  stability_result r
  = Raise (RuntimeError
      (u "Stability API error: " ++ dec (status r) ++ u " " ++ txt)).
Proof.
  intros Hst Htxt. unfold stability_result.
  apply Z.eqb_neq in Hst. rewrite Hst, Htxt. reflexivity.
Qed.

Lemma stability_result_content_type (r : response) (txt : str) :
  status r = 200 ->
  contains (u "image/") (default [] (content_type r)) = false ->
  resp_text r = Ok txt ->
  stability_result r
  = Raise (RuntimeError
      (u "Unexpected content-type: " ++ default [] (content_type r)
         ++ u " | body: " ++ take 400 txt)).
Proof.
  intros Hst Hct Htxt. unfold stability_result.
  rewrite Hst, Hct, Htxt. reflexivity.
Qed.

(** The backend call fails exactly when the status is not 200 or the
    content type is not an image type, for a response whose body can be
    read. *)
Lemma stability_result_fails_iff (r : response) (txt : str) (data : list Z) :
  resp_text r = Ok txt -> resp_read r = Ok data ->
  (exists e, stability_result r = Raise e)
  <-> (status r <> 200
       \/ contains (u "image/") (default [] (content_type r)) = false).
Proof.
  intros Htxt Hdata. split.
  - intros [e He].
    destruct (decide (status r = 200)) as [Hst|Hst]; [|left; assumption].
    right.
    destruct (contains (u "image/") (default [] (content_type r))) eqn:Hct;
      [|reflexivity].
    rewrite stability_result_success in He by assumption. congruence.
  - intros [Hst|Hct].
    + eexists. apply stability_result_status; eassumption.
    + destruct (decide (status r = 200)) as [Hst|Hst].
      * eexists. apply stability_result_content_type; eassumption.
      * eexists. apply stability_result_status; eassumption.
Qed.

(** C3, at a 404 response with a body of 500 characters: the error
    carries the status and the whole body, 525 characters in all, where
    the claim has a truncated snippet; the content-type branch, on the
    same body with status 200, cuts it to 400 characters. *)
Theorem stability_error_body_not_truncated :
  stability_result (response_error 404 long_body)
  = Raise (RuntimeError (u "Stability API error: 404 " ++ long_body))
  /\ length (u "Stability API error: 404 " ++ long_body) = 525%nat
  /\ stability_result
       (mkResponse 200 (Some (u "text/html")) (Ok long_body)
          (Raise ValueError) (Ok []))
     = Raise (RuntimeError
         (u "Unexpected content-type: text/html | body: " ++ take 400 long_body)).
Proof. repeat split; vm_compute; reflexivity. Qed.

(** * TranslationChain *)

Lemma truthy_PStr (s : str) : truthy (PStr s) = negb (bool_decide (s = [])).
Proof. reflexivity. Qed.

Lemma truthy_PStr_true (s : str) : s <> [] -> truthy (PStr s) = true.
Proof. intros Hs. cbn. rewrite bool_decide_eq_false_2 by assumption. reflexivity. Qed.

Lemma truthy_PStr_nil : truthy (PStr []) = false.
Proof. reflexivity. Qed.

Ltac run_io :=
  unfold io_try, io_bind, emit, lift, io_ret; cbn [app].

Section Chain.

Context (W : World) (C : Config).

Lemma try_deepl_success (text : str) (r : response) (j tr : pyval) :
  http_post W (deepl_request C text) = Ok r ->
  status r = 200 -> resp_json r = Ok j -> deepl_text j = Ok tr ->
  truthy tr = true ->
  try_deepl W C text = ([EvPost (deepl_request C text)], Ok (Some tr)).
Proof.
  intros Hpost Hst Hj Htr Htruthy. unfold try_deepl.
  rewrite Hpost. run_io. rewrite Hst. cbn. rewrite Hj, Htr, Htruthy.
  reflexivity.
Qed.

Lemma try_deepl_failure (text : str) :
  provider_fails deepl_text (http_post W (deepl_request C text)) ->
  try_deepl W C text = ([EvPost (deepl_request C text)], Ok None).
Proof.
  intros Hfail. unfold try_deepl.
  inversion Hfail as [e He | r Hst He | r e Hst Hj He | r j e Hst Hj Hx He
                      | r j tr Hst Hj Hx Htr He]; run_io.
  - reflexivity.
  - apply Z.eqb_neq in Hst. rewrite Hst. destruct (resp_text r); reflexivity.
  - rewrite Hst. cbn. rewrite Hj. reflexivity.
  - rewrite Hst. cbn. rewrite Hj, Hx. reflexivity.
  - rewrite Hst. cbn. rewrite Hj, Hx, Htr. reflexivity.
Qed.

Lemma try_deepl_total (text : str) :
  exists o, try_deepl W C text = ([EvPost (deepl_request C text)], Ok o).
Proof.
  unfold try_deepl. run_io.
  destruct (http_post W (deepl_request C text)) as [r|e]; [|eauto].
  destruct (status r =? 200).
  - destruct (resp_json r) as [j|e]; [|eauto].
    destruct (deepl_text j) as [tr|e]; eauto.
  - destruct (resp_text r); eauto.
Qed.

Lemma try_libre_success (text : str) (r : response) (j tr : pyval) :
  http_post W (libre_request C text) = Ok r ->
  status r = 200 -> resp_json r = Ok j -> libre_text j = Ok tr ->
  truthy tr = true ->
  try_libre W C text = ([EvPost (libre_request C text)], Ok (Some tr)).
Proof.
  intros Hpost Hst Hj Htr Htruthy. unfold try_libre.
  rewrite Hpost. run_io. rewrite Hst. cbn. rewrite Hj, Htr, Htruthy.
  reflexivity.
Qed.

Lemma try_libre_failure (text : str) :
  provider_fails libre_text (http_post W (libre_request C text)) ->
  try_libre W C text = ([EvPost (libre_request C text)], Ok None).
Proof.
  intros Hfail. unfold try_libre.
  inversion Hfail as [e He | r Hst He | r e Hst Hj He | r j e Hst Hj Hx He
                      | r j tr Hst Hj Hx Htr He]; run_io.
  - reflexivity.
  - apply Z.eqb_neq in Hst. rewrite Hst. destruct (resp_text r); reflexivity.
  - rewrite Hst. cbn. rewrite Hj. reflexivity.
  - rewrite Hst. cbn. rewrite Hj, Hx. reflexivity.
  - rewrite Hst. cbn. rewrite Hj, Hx, Htr. reflexivity.
Qed.

Lemma try_libre_total (text : str) :
  exists o, try_libre W C text = ([EvPost (libre_request C text)], Ok o).
Proof.
  unfold try_libre. run_io.
  destruct (http_post W (libre_request C text)) as [r|e]; [|eauto].
  destruct (status r =? 200).
  - destruct (resp_json r) as [j|e]; [|eauto].
    destruct (libre_text j) as [tr|e]; eauto.
  - destruct (resp_text r); eauto.
Qed.

Lemma search_nonempty (text : str) :
  CYRILLIC_RE_search text = true -> text <> [].
Proof. intros Hs ->. discriminate. Qed.

(** C5: when DeepL is configured and answers a text that needs
    translation with a non-empty translation, the chain returns that
    translation attributed to DeepL, and its only network call is the
    DeepL request: LibreTranslate is not called. *)
Theorem deepl_success_short_circuits (text : str) (r : response)
    (j : pyval) (tr : str) :
  text <> [] -> CYRILLIC_RE_search text = true ->
  DEEPL_API_KEY C <> [] ->
  http_post W (deepl_request C text) = Ok r ->
  status r = 200 -> resp_json r = Ok j ->
  deepl_text j = Ok (PStr tr) -> tr <> [] ->
  translate_ru_to_en W C text
  = ([EvPost (deepl_request C text)], Ok (PStr tr, Some deepl))
  /\ EvPost (libre_request C text) ∉ fst (translate_ru_to_en W C text).
Proof.
  intros Htext Hcyr Hkey Hpost Hst Hj Htr Hne.
  assert (Hrun : translate_ru_to_en W C text
                 = ([EvPost (deepl_request C text)], Ok (PStr tr, Some deepl))).
  { unfold translate_ru_to_en.
    rewrite (truthy_PStr_true text), Hcyr by assumption. cbn [negb orb].
    rewrite (truthy_PStr_true (DEEPL_API_KEY C)) by assumption.
    rewrite (try_deepl_success text r j (PStr tr))
      by (try assumption; apply truthy_PStr_true; assumption).
    reflexivity. }
  split; [exact Hrun|].
  rewrite Hrun. cbn [fst]. intros Hin.
  apply list_elem_of_singleton in Hin. inversion Hin.
Qed.


Lemma deepl_step_unavailable (text : str) :
  DEEPL_API_KEY C = []
  \/ provider_fails deepl_text (http_post W (deepl_request C text)) ->
  (if truthy (PStr (DEEPL_API_KEY C)) then try_deepl W C text else io_ret None)
  = (deepl_calls C text, Ok None).
Proof.
  intros Hun. unfold deepl_calls.
  destruct (truthy (PStr (DEEPL_API_KEY C))) eqn:Hkey; [|reflexivity].
  destruct Hun as [Hnil|Hfail].
  - rewrite Hnil in Hkey. discriminate.
  - apply try_deepl_failure. assumption.
Qed.

Lemma translate_total (text : str) :
  exists evs v, translate_ru_to_en W C text = (evs, Ok v).
Proof.
  unfold translate_ru_to_en.
  destruct (negb (truthy (PStr text)) || negb (CYRILLIC_RE_search text));
    [unfold io_ret; eauto|].
  assert (Hd : exists evs o,
    (if truthy (PStr (DEEPL_API_KEY C)) then try_deepl W C text else io_ret None)
    = (evs, Ok o)).
  { destruct (truthy (PStr (DEEPL_API_KEY C))).
    - destruct (try_deepl_total text) as [o Ho]. eauto.
    - unfold io_ret. eauto. }
  destruct Hd as (evs & o & Hd). rewrite Hd. run_io.
  destruct o as [tr|]; [eauto|].
  destruct (try_libre_total text) as [o Ho]. rewrite Ho.
  destruct o; eauto.
Qed.

(** The failures the chain does absorb.  It never raises; when DeepL is
    not configured or fails in one of the ways of [provider_fails],
    LibreTranslate is called next and decides the result; when that fails
    too, the chain returns the original text with no provider.  An answer
    whose value is truthy but no string is not among these failures: the
    chain takes it for a translation. *)
Lemma translation_failures_absorbed (text : str) :
  (exists evs v, translate_ru_to_en W C text = (evs, Ok v))
  /\ (CYRILLIC_RE_search text = true ->
      DEEPL_API_KEY C = []
      \/ provider_fails deepl_text (http_post W (deepl_request C text)) ->
      exists o,
        try_libre W C text = ([EvPost (libre_request C text)], Ok o)
        /\ translate_ru_to_en W C text
           = (deepl_calls C text ++ [EvPost (libre_request C text)],
              Ok (match o with
                  | Some tr => (tr, Some libre)
                  | None => (PStr text, None)
                  end)))
  /\ (CYRILLIC_RE_search text = true ->
      DEEPL_API_KEY C = []
      \/ provider_fails deepl_text (http_post W (deepl_request C text)) ->
      provider_fails libre_text (http_post W (libre_request C text)) ->
      translate_ru_to_en W C text
      = (deepl_calls C text ++ [EvPost (libre_request C text)],
         Ok (PStr text, None))).
Proof.
  split; [apply translate_total|].
  assert (Hnext : CYRILLIC_RE_search text = true ->
    DEEPL_API_KEY C = []
    \/ provider_fails deepl_text (http_post W (deepl_request C text)) ->
    forall o, try_libre W C text = ([EvPost (libre_request C text)], Ok o) ->
    translate_ru_to_en W C text
    = (deepl_calls C text ++ [EvPost (libre_request C text)],
       Ok (match o with
           | Some tr => (tr, Some libre)
           | None => (PStr text, None)
           end))).
  { intros Hcyr Hun o Ho. unfold translate_ru_to_en.
    rewrite (truthy_PStr_true text), Hcyr by (apply search_nonempty; assumption).
    cbn [negb orb].
    rewrite deepl_step_unavailable by assumption. run_io.
    rewrite Ho. destruct o; rewrite ?app_nil_r; reflexivity. }
  split.
  - intros Hcyr Hun. destruct (try_libre_total text) as [o Ho].
    exists o. split; [exact Ho|]. apply Hnext; assumption.
  - intros Hcyr Hun Hfail.
    apply (Hnext Hcyr Hun None). apply try_libre_failure. assumption.
Qed.

Lemma search_none (text : str) :
  Forall (fun c => CYRILLIC_RE_match c = false) text ->
  CYRILLIC_RE_search text = false.
Proof.
  unfold CYRILLIC_RE_search.
  induction 1 as [|c text Hc _ IH]; [reflexivity|].
  cbn [existsb]. rewrite Hc, IH. reflexivity.
Qed.

(** C8: a text that is empty or has no character of the class
    [А-Яа-яЁё] comes back unchanged, with no provider, and the chain
    makes no call at all. *)
Theorem no_cyrillic_no_calls (text : str) :
  text = [] \/ Forall (fun c => CYRILLIC_RE_match c = false) text ->
  translate_ru_to_en W C text = ([], Ok (PStr text, None)).
Proof.
  intros [-> | Hnone]; [reflexivity|].
  unfold translate_ru_to_en. rewrite (search_none text Hnone).
  rewrite orb_true_r. reflexivity.
Qed.

End Chain.

(** The class [А-Яа-яЁё] lies inside the Unicode Cyrillic block
    U+0400..U+04FF: a text with no Cyrillic character has none of the
    class. *)
Lemma CYRILLIC_RE_match_block (c : Z) :
  CYRILLIC_RE_match c = true -> 1024 <= c <= 1279.
Proof.
  unfold CYRILLIC_RE_match.
  change (cp "А") with 1040. change (cp "Я") with 1071.
  change (cp "а") with 1072. change (cp "я") with 1103.
  change (cp "Ё") with 1025. change (cp "ё") with 1105.
  intros H.
  repeat (apply orb_prop in H as [H|H]);
    try (apply andb_prop in H as [H1 H2]; apply Z.leb_le in H1, H2; lia);
    apply Z.eqb_eq in H; lia.
Qed.

(** * InpaintOrchestrator *)

Section Handler.

Context (W : World) (C : Config).

Lemma webapp_data_validate (LAST_IMAGE_URL : gmap Z str) (uid : Z)
  (d : str) (data : pyval) (f : fields) :
d <> [] -> json_loads W d = Ok data ->
read_fields W LAST_IMAGE_URL uid data = Ok f ->
webapp_data W C LAST_IMAGE_URL uid (Some d)
= if missing f then ([EvReplyText msg_missing], Ok tt)
  else after_validation W C f.
Proof.
intros Hd Hjson Hread. unfold webapp_data.
destruct d as [|c d]; [congruence|].
rewrite Hjson. unfold guarded, lift, io_bind. rewrite Hread.
destruct (missing f); [reflexivity|].
destruct (after_validation W C f) as [evs r]. reflexivity.
Qed.

(** What [read_fields] took from the payload. *)
Lemma read_fields_inv (LAST_IMAGE_URL : gmap Z str) (uid : Z)
  (kv : list (str * pyval)) (f : fields) :
read_fields W LAST_IMAGE_URL uid (PDict kv) = Ok f ->
img_url f = py_or (default PNone (assoc (u "img") kv))
              (last_image LAST_IMAGE_URL uid)
/\ py_strip (py_or (default PNone (assoc (u "prompt") kv)) (PStr []))
   = Ok (prompt f)
/\ py_int W (py_or (default PNone (assoc (u "nat_w") kv)) (PInt 0)) = Ok (nat_w f)
/\ py_int W (py_or (default PNone (assoc (u "nat_h") kv)) (PInt 0)) = Ok (nat_h f)
/\ py_int W (py_or (default PNone (assoc (u "bm_w") kv)) (PInt 0)) = Ok (bm_w f)
/\ py_int W (py_or (default PNone (assoc (u "bm_h") kv)) (PInt 0)) = Ok (bm_h f)
/\ b64mask f = default PNone (assoc (u "bitmask") kv).
Proof.
unfold read_fields, py_get, py_get_default. cbn [mbind result_bind].
destruct (py_strip _) as [p|] eqn:Hp; [|discriminate].
cbn [mbind result_bind].
destruct (py_int W (py_or (default PNone (assoc (u "nat_w") kv)) _))
  as [a|] eqn:Ha; [|discriminate].
cbn [mbind result_bind].
destruct (py_int W (py_or (default PNone (assoc (u "nat_h") kv)) _))
  as [b|] eqn:Hb; [|discriminate].
cbn [mbind result_bind].
destruct (py_int W (py_or (default PNone (assoc (u "bm_w") kv)) _))
  as [c|] eqn:Hc; [|discriminate].
cbn [mbind result_bind].
destruct (py_int W (py_or (default PNone (assoc (u "bm_h") kv)) _))
  as [e|] eqn:He; [|discriminate].
cbn [mbind result_bind].
intros [= <-]. cbn [img_url prompt nat_w nat_h bm_w bm_h b64mask].
repeat split; assumption.
Qed.

(** C4, as the code has it: when, after the stored image of the user has
  stood in for an absent [img], the image reference is still absent or
  empty, or the bitmask is absent or empty, or one of the four sizes is
  0 (an absent size is read as 0), the handler sends the one fixed
  message and does nothing else. *)
Theorem validation_rejects_missing (LAST_IMAGE_URL : gmap Z str) (uid : Z)
  (d : str) (kv : list (str * pyval)) (f : fields) :
d <> [] -> json_loads W d = Ok (PDict kv) ->
read_fields W LAST_IMAGE_URL uid (PDict kv) = Ok f ->
(truthy (default PNone (assoc (u "img") kv)) = false
 /\ truthy (last_image LAST_IMAGE_URL uid) = false)
\/ truthy (default PNone (assoc (u "bitmask") kv)) = false
\/ nat_w f = 0 \/ nat_h f = 0 \/ bm_w f = 0 \/ bm_h f = 0 ->
webapp_data W C LAST_IMAGE_URL uid (Some d)
= ([EvReplyText msg_missing], Ok tt).
Proof.
intros Hd Hjson Hread Hmiss.
rewrite (webapp_data_validate _ _ _ _ _ Hd Hjson Hread).
destruct (read_fields_inv _ _ _ _ Hread) as (Himg & _ & _ & _ & _ & _ & Hmask).
replace (missing f) with true; [reflexivity|].
symmetry. unfold missing. rewrite Himg, Hmask.
destruct Hmiss as [[Hi Hl] | [Hm | [Hz | [Hz | [Hz | Hz]]]]].
- unfold py_or. rewrite Hi, Hl. reflexivity.
- rewrite Hm. cbn [negb]. rewrite orb_true_r. reflexivity.
- rewrite Hz. cbn. rewrite !orb_true_r. reflexivity.
- rewrite Hz. cbn. rewrite !orb_true_r. reflexivity.
- rewrite Hz. cbn. rewrite !orb_true_r. reflexivity.
- rewrite Hz. cbn. rewrite !orb_true_r. reflexivity.
Qed.





Lemma strip_inpaint : strip (u "inpaint") = u "inpaint".
Proof. reflexivity. Qed.






(** C10: a payload whose [img] is absent or empty takes the stored image
  of the user as its image reference; with a stored image and the other
  required fields present the handler goes on to the mask stage, and
  with no stored image it sends the missing-fields message.  The store
  holds for each user the URL of the last upload. *)
Theorem missing_img_uses_last_image (LAST_IMAGE_URL : gmap Z str) (uid : Z)
  (d : str) (kv : list (str * pyval)) (f : fields) :
d <> [] -> json_loads W d = Ok (PDict kv) ->
truthy (default PNone (assoc (u "img") kv)) = false ->
read_fields W LAST_IMAGE_URL uid (PDict kv) = Ok f ->
img_url f = last_image LAST_IMAGE_URL uid
/\ (forall url, LAST_IMAGE_URL !! uid = Some url -> url <> [] ->
      img_url f = PStr url
      /\ (truthy (b64mask f) = true ->
          nat_w f <> 0 -> nat_h f <> 0 -> bm_w f <> 0 -> bm_h f <> 0 ->
          webapp_data W C LAST_IMAGE_URL uid (Some d) = after_validation W C f))
/\ (LAST_IMAGE_URL !! uid = None ->
    webapp_data W C LAST_IMAGE_URL uid (Some d)
    = ([EvReplyText msg_missing], Ok tt))
/\ (forall (store : gmap Z str) fid name, upload_name W fid = Ok name ->
      exists evs store',
        got_image W C store uid (Some fid) = (evs, Ok store')
        /\ last_image store' uid
           = PStr (PUBLIC_BASE_URL C ++ u "/uploads/" ++ name)
        /\ forall uid', uid' <> uid ->
             last_image store' uid' = last_image store uid').
Proof.
intros Hd Hjson Himg Hread.
destruct (read_fields_inv _ _ _ _ Hread) as (Hurl & _).
assert (Hlast : img_url f = last_image LAST_IMAGE_URL uid).
{ rewrite Hurl. unfold py_or. rewrite Himg. reflexivity. }
rewrite (webapp_data_validate _ _ _ _ _ Hd Hjson Hread).
split; [exact Hlast|]. split; [|split].
- intros url Hsome Hne.
  assert (Hu : img_url f = PStr url).
  { rewrite Hlast. unfold last_image. rewrite Hsome. reflexivity. }
  split; [exact Hu|].
  intros Hmask Hw Hh Hbw Hbh.
  replace (missing f) with false; [reflexivity|].
  symmetry. unfold missing. rewrite Hu, Hmask.
  rewrite (truthy_PStr_true url Hne). cbn [negb orb].
  apply Z.eqb_neq in Hw, Hh, Hbw, Hbh. rewrite Hw, Hh, Hbw, Hbh. reflexivity.
- intros Hnone.
  replace (missing f) with true; [reflexivity|].
  symmetry. unfold missing. rewrite Hlast. unfold last_image. rewrite Hnone.
  reflexivity.
- intros store fid name Hname.
  unfold got_image, save_tg_file_to_uploads. run_io. rewrite Hname.
  cbn [app]. eexists _, _. split; [reflexivity|]. unfold last_image. split.
  + rewrite lookup_insert_eq. reflexivity.
  + intros uid' Hne. rewrite lookup_insert_ne by congruence. reflexivity.
Qed.

End Handler.

(** * The properties at concrete inputs *)

(** The end-to-end example: the byte [0b11000000] decoded as a 2 x 2 mask
    and composited at [(2, 2)] on a 10 x 10 canvas. *)
Example end_to_end_mask :
  (small ← unpack_raw [192] 2 2;
   _build_fullsize_mask nearest_center 10 10 [2; 2; 2; 2] small)
  = Ok (image_of_fun 10 10 (fun i j =>
          if (2 <=? i) && (i <? 4) && (j =? 2) then 255 else 0)).
Proof. vm_compute. reflexivity. Qed.

Lemma unpack_bitmask_spec_witness :
  exists img,
    _unpack_bitmask_to_L (fun _ : unit => Ok [192]) tt 2 2 = Ok img
    /\ width img = 2 /\ height img = 2
    /\ Z.of_nat (length (pixels img)) = 2 * 2
    /\ pixels img !! 1%nat = Some 255
    /\ pixels img !! 3%nat = Some 0.
Proof.
  destruct (unpack_bitmask_spec (fun _ : unit => Ok [192]) tt [192] 2 2)
    as (img & Hrun & Hw & Hh & Hlen & Hbits & _); [lia | lia | reflexivity |].
  exists img. repeat split; try assumption.
  - apply (Hbits 1%nat). vm_compute. reflexivity.
  - apply (Hbits 3%nat). vm_compute. reflexivity.
Defined.

Lemma pack_unpack_roundtrip_witness :
  _unpack_bitmask_to_L (fun _ : unit => Ok [192]) tt 2 2
  = Ok (mkImage 2 2 [255; 255; 0; 0]).
Proof.
  apply (pack_unpack_roundtrip (fun _ : unit => Ok [192]) tt
           [true; true; false; false] [] 2 2); [lia | lia | reflexivity | reflexivity].
Defined.

Lemma build_fullsize_mask_spec_witness :
  exists full,
    _build_fullsize_mask nearest_center 10 10 [2; 2; 2; 2]
      (mkImage 2 2 [255; 255; 0; 0]) = Ok full
    /\ width full = 10 /\ height full = 10
    /\ Forall binary (pixels full)
    /\ getpixel full 4 2 = Some 0.
Proof.
  destruct (build_fullsize_mask_spec nearest_center 10 10 2 2 2 2
              (mkImage 2 2 [255; 255; 0; 0]))
    as (full & Hrun & Hw & Hh & _ & Hbin & Hout & _).
  - lia.
  - lia.
  - repeat (constructor; [unfold binary; lia|]). constructor.
  - exists full. repeat split; try assumption.
    apply Hout; lia.
Defined.

(** A network where DeepL answers "cat" and LibreTranslate is down. *)
Lemma deepl_success_short_circuits_witness :
  translate_ru_to_en
    (ex_world PNone (ex_post deepl_cat service_down backend_ok)) ex_config (u "кот")
  = ([EvPost (deepl_request ex_config (u "кот"))],
     Ok (PStr (u "cat"), Some deepl)).
Proof.
  refine (proj1 (deepl_success_short_circuits
    (ex_world PNone (ex_post deepl_cat service_down backend_ok)) ex_config
    (u "кот")
    (response_200 (u "application/json")
       (Ok (PDict [(u "translations", PList [PDict [(u "text", PStr (u "cat"))]])]))
       [])
    (PDict [(u "translations", PList [PDict [(u "text", PStr (u "cat"))]])])
    (u "cat") _ _ _ _ _ _ _ _));
    solve [reflexivity | vm_compute; congruence].
Defined.

(** A network where both translators are down. *)
Lemma translation_failures_absorbed_witness :
  translate_ru_to_en
    (ex_world PNone (ex_post service_down service_down backend_ok)) ex_config
    (u "кот")
  = ([EvPost (deepl_request ex_config (u "кот"));
      EvPost (libre_request ex_config (u "кот"))],
     Ok (PStr (u "кот"), None)).
Proof.
  refine (proj2 (proj2 (translation_failures_absorbed
    (ex_world PNone (ex_post service_down service_down backend_ok)) ex_config
    (u "кот"))) _ _ _).
  - reflexivity.
  - right. apply (fails_network deepl_text (ClientError (u "down"))).
  - apply (fails_network libre_text (ClientError (u "down"))).
Defined.

(** C6, at a malformed DeepL answer: status 200 and
    [{"translations": [{"text": 5}]}], LibreTranslate being ready to
    answer "cat".  The claim has every malformed response passed through
    to the next provider; the chain returns the number 5 attributed to
    DeepL, against its own return type [tuple[str, str | None]], after
    the DeepL request alone, and the handler then fails in the backend
    call ([prompt.strip()] on an int) without sending the edit request. *)
Theorem translation_accepts_non_string :
  translate_ru_to_en
    (ex_world PNone (ex_post deepl_number libre_cat backend_ok)) ex_config
    (u "кот")
  = ([EvPost (deepl_request ex_config (u "кот"))], Ok (PInt 5, Some deepl))
  /\ webapp_data
       (ex_world payload_cat (ex_post deepl_number libre_cat backend_ok))
       ex_config ex_store 7 (Some (u "{}"))
     = (ex_fetch
          ++ [EvPost (deepl_request ex_config (u "кот"));
              EvReplyText (u "❌ Ошибка Stability: " ++ u "error")],
        Ok tt).
Proof. split; vm_compute; reflexivity. Qed.

Lemma no_cyrillic_no_calls_witness :
  translate_ru_to_en
    (ex_world PNone (ex_post service_down service_down backend_ok)) ex_config
    (u "a cat")
  = ([], Ok (PStr (u "a cat"), None)).
Proof.
  apply no_cyrillic_no_calls. right.
  repeat (constructor; [reflexivity|]). constructor.
Defined.

(** C4 fails as stated: a payload without [img], sent by a user with a
    stored image, passes validation and the handler runs through to the
    reply; and two payloads that lack different fields (the bitmask, a
    non-zero width) get the same message, which names neither. *)
Lemma validation_passes_without_img :
  py_get payload_no_img (u "img") = Ok PNone
  /\ webapp_data (ex_run payload_no_img) ex_config ex_store 7 (Some (u "{}"))
     = ([EvExists (UPLOAD_DIR ++ u "/1_ab.jpg");
         EvGet (u "https://funfishinggame.store/uploads/1_ab.jpg");
         EvPost (stability_request ex_config [1; 2; 3] ex_mask (u "inpaint"));
         EvReplyPhoto [7; 7] (u "Готово ✨")],
        Ok tt)
  /\ webapp_data (ex_run payload_no_mask) ex_config ex_store 7 (Some (u "{}"))
     = ([EvReplyText msg_missing], Ok tt)
  /\ webapp_data (ex_run payload_zero_width) ex_config ex_store 7 (Some (u "{}"))
     = ([EvReplyText msg_missing], Ok tt).
Proof. repeat split; vm_compute; reflexivity. Qed.

Lemma validation_rejects_missing_witness :
  webapp_data (ex_run payload_zero_width) ex_config ex_store 7 (Some (u "{}"))
  = ([EvReplyText msg_missing], Ok tt).
Proof.
  refine (validation_rejects_missing (ex_run payload_zero_width) ex_config
            ex_store 7 (u "{}")
            [(u "img", PStr (u "https://example.org/a.png"));
             (u "nat_w", PInt 0); (u "nat_h", PInt 4);
             (u "bm_w", PInt 2); (u "bm_h", PInt 2);
             (u "bitmask", PStr (u "wA=="))]
            (mkFields (PStr (u "https://example.org/a.png")) [] 0 4 2 2
               (PList [PInt 0; PInt 0; PInt 0; PInt 0]) (PStr (u "wA==")))
            _ _ _ _).
  - vm_compute. congruence.
  - reflexivity.
  - vm_compute. reflexivity.
  - right. right. left. reflexivity.
Defined.


Lemma missing_img_uses_last_image_witness :
  webapp_data (ex_run payload_no_img) ex_config ex_store 7 (Some (u "{}"))
  = after_validation (ex_run payload_no_img) ex_config
      (mkFields (PStr (u "https://funfishinggame.store/uploads/1_ab.jpg"))
         [] 4 4 2 2 (PList [PInt 1; PInt 1; PInt 2; PInt 2]) (PStr (u "wA=="))).
Proof.
  refine (proj2 (proj1 (proj2 (missing_img_uses_last_image
            (ex_run payload_no_img) ex_config ex_store 7 (u "{}") ex_sizes
            (mkFields (PStr (u "https://funfishinggame.store/uploads/1_ab.jpg"))
               [] 4 4 2 2 (PList [PInt 1; PInt 1; PInt 2; PInt 2])
               (PStr (u "wA==")))
            _ _ _ _))
            (u "https://funfishinggame.store/uploads/1_ab.jpg") _ _)
            _ _ _ _ _).
  - vm_compute. congruence.
  - reflexivity.
  - vm_compute. reflexivity.
  - vm_compute. reflexivity.
  - vm_compute. reflexivity.
  - vm_compute. congruence.
  - vm_compute. reflexivity.
  - vm_compute. congruence.
  - vm_compute. congruence.
  - vm_compute. congruence.
  - vm_compute. congruence.
Defined.

(** DeepL down, LibreTranslate answering: the second provider decides. *)
Example libre_takes_over :
  translate_ru_to_en
    (ex_world PNone (ex_post service_down libre_cat backend_ok)) ex_config (u "кот")
  = ([EvPost (deepl_request ex_config (u "кот"));
      EvPost (libre_request ex_config (u "кот"))],
     Ok (PStr (u "cat"), Some libre)).
Proof. vm_compute. reflexivity. Qed.

(** A prompt that is not empty is outside the substitution: when the
    translator turns it into a blank string, the blank string is what the
    backend call receives, and the form carries no prompt field. *)
Example blank_translation_omits_prompt :
  EvPost (stability_request ex_config [1; 2; 3] ex_mask (u " "))
    ∈ fst (webapp_data
             (ex_world payload_cat (ex_post deepl_blank service_down backend_ok))
             ex_config ex_store 7 (Some (u "{}")))
  /\ stability_form [1; 2; 3] ex_mask (u " ")
     = [FileField (u "image") [1; 2; 3] (u "image.png") (u "image/png");
        FileField (u "mask") ex_mask (u "mask.png") (u "image/png");
        TextField (u "output_format") (u "png")].
Proof.
  split; [|vm_compute; reflexivity].
  apply list_elem_of_In. vm_compute. right. right. right. left. reflexivity.
Qed.

(** * More on the mask engine *)

(** The outer loop on a fresh buffer always runs to its end. *)
Lemma unpack_bytes_buffer (total : Z) (raw : list Z) :
  0 <= total ->
  exists st, unpack_bytes total raw (replicate (Z.to_nat total) 0, 0) = Ok st.
Proof.
  intros Ht.
  pose proof (unpack_bytes_app raw [] (replicate (Z.to_nat total) 0)) as Hloop.
  rewrite app_nil_l, length_replicate, Z2Nat.id in Hloop by lia.
  simpl length in Hloop. change (Z.of_nat 0) with 0 in Hloop.
  eexists. exact Hloop.
Qed.

Lemma unpack_raw_negative (raw : list Z) (w h : Z) :
  w < 0 \/ h < 0 -> unpack_raw raw w h = Raise ValueError.
Proof.
  intros Hneg. unfold unpack_raw, bytearray.
  destruct (w * h <? 0) eqn:Ht; [reflexivity|].
  apply Z.ltb_ge in Ht. cbn [mbind result_bind].
  destruct (unpack_bytes_buffer (w * h) raw Ht) as [st ->].
  cbn [mbind result_bind]. unfold Image_frombytes.
  replace ((w <? 0) || (h <? 0)) with true; [reflexivity|].
  symmetry. apply orb_true_iff.
  destruct Hneg; [left | right]; apply Z.ltb_lt; assumption.
Qed.

(** X1: when one side of the target size is negative and the other is
    not, the decoder raises [ValueError] whatever the input bytes: from
    [bytearray] when the product is negative (and still fits the index type
    of a 64-bit interpreter), from [Image.frombytes] when it is 0. *)
Theorem unpack_bitmask_negative_side {B : Type}
    (b64decode : B -> result (list Z)) (b64 : B) (raw : list Z) (w h : Z) :
  b64decode b64 = Ok raw ->
  (w < 0 /\ 0 <= h) \/ (0 <= w /\ h < 0) ->
  - 2 ^ 63 <= w * h ->
  _unpack_bitmask_to_L b64decode b64 w h = Raise ValueError.
Proof.
  intros Hraw Hneg _. unfold _unpack_bitmask_to_L. rewrite Hraw.
  cbn [mbind result_bind]. apply unpack_raw_negative. lia.
Qed.

Lemma pixel_of_bool_binary (b : bool) : binary (pixel_of_bool b).
Proof. destruct b; [right | left]; reflexivity. Qed.

Lemma unpack_raw_binary (raw : list Z) (w h : Z) (img : Image) :
  unpack_raw raw w h = Ok img ->
  width img = w /\ height img = h
  /\ Z.of_nat (length (pixels img)) = w * h
  /\ Forall binary (pixels img).
Proof.
  intros Hrun.
  destruct (decide (w < 0 \/ h < 0)) as [Hneg|Hpos].
  { rewrite (unpack_raw_negative raw w h Hneg) in Hrun. discriminate Hrun. }
  destruct (unpack_raw_pixels raw w h) as (img' & Himg & Hw & Hh & Hlen & Hpx);
    [lia | lia |].
  assert (img' = img) as -> by congruence.
  repeat split; try assumption.
  - rewrite Hlen. apply Z2Nat.id. nia.
  - apply Forall_lookup_2. intros i x Hx.
    assert (Hi : (i < Z.to_nat (w * h))%nat).
    { rewrite <- Hlen. eapply lookup_lt_Some. exact Hx. }
    rewrite (Hpx i Hi) in Hx. injection Hx as <-. apply pixel_of_bool_binary.
Qed.

(** X2: whatever the input bytes, a bitmap the decoder returns has the
    requested size and only the pixel values 0 and 255. *)
Theorem unpack_bitmask_binary {B : Type} (b64decode : B -> result (list Z))
    (b64 : B) (w h : Z) (img : Image) :
  _unpack_bitmask_to_L b64decode b64 w h = Ok img ->
  width img = w /\ height img = h
  /\ Z.of_nat (length (pixels img)) = w * h
  /\ Forall binary (pixels img).
Proof.
  unfold _unpack_bitmask_to_L.
  destruct (b64decode b64) as [raw|e]; [|discriminate].
  cbn [mbind result_bind]. apply unpack_raw_binary.
Qed.

Lemma unpack4_ok_iff (bbox : list Z) :
  (exists q, unpack4 bbox = Ok q) <-> length bbox = 4%nat.
Proof.
  split.
  - intros [q Hq].
    destruct bbox as [|a [|b [|c [|d [|e t]]]]]; try discriminate Hq. reflexivity.
  - intros Hlen.
    destruct bbox as [|a [|b [|c [|d [|e t]]]]]; try discriminate Hlen.
    cbn. eauto.
Qed.

(** The two ways the compositor ends, for a canvas of non-negative size:
    the blank canvas, or the canvas with the resized mask pasted. *)
Lemma build_fullsize_mask_cases (nearest : Z -> Z -> Z -> Z)
    (nat_w nat_h x y w h : Z) (small_mask : Image) :
  0 <= nat_w -> 0 <= nat_h ->
  let blank := mkImage nat_w nat_h (replicate (Z.to_nat (nat_w * nat_h)) 0) in
  ((w <= 0 \/ h <= 0 \/ nat_w <= x \/ nat_h <= y)
   /\ _build_fullsize_mask nearest nat_w nat_h [x; y; w; h] small_mask = Ok blank)
  \/ (0 < w /\ 0 < h /\ x < nat_w /\ y < nat_h
      /\ exists m,
           Image_resize nearest small_mask
             (Z.min w (nat_w - x)) (Z.min h (nat_h - y)) = Ok m
           /\ _build_fullsize_mask nearest nat_w nat_h [x; y; w; h] small_mask
              = Ok (Image_paste blank m x y)).
Proof.
  intros Hnw Hnh blank.
  unfold _build_fullsize_mask. cbn [unpack4 mbind result_bind].
  rewrite Image_new_ok by assumption. cbn [mbind result_bind]. fold blank.
  destruct ((w >? 0) && (h >? 0) && (x <? nat_w) && (y <? nat_h)) eqn:Hin.
  - right.
    apply andb_prop in Hin as [Hin Hy]. apply andb_prop in Hin as [Hin Hx].
    apply andb_prop in Hin as [Hw Hh].
    apply Z.gtb_lt in Hw, Hh. apply Z.ltb_lt in Hx, Hy.
    replace ((Z.min w (nat_w - x) >? 0) && (Z.min h (nat_h - y) >? 0)) with true
      by (symmetry; apply andb_true_intro; split; apply Z.gtb_lt; lia).
    destruct (Image_resize_ok nearest small_mask
                (Z.min w (nat_w - x)) (Z.min h (nat_h - y)))
      as (m & Hm & _); [lia | lia |].
    rewrite Hm. cbn [mbind result_bind]. repeat split; try assumption. eauto.
  - left. split; [|reflexivity].
    apply andb_false_iff in Hin as [Hin|Hy];
      [apply andb_false_iff in Hin as [Hin|Hx];
        [apply andb_false_iff in Hin as [Hw|Hh]|]|].
    + left. rewrite Z.gtb_ltb in Hw. apply Z.ltb_ge in Hw. lia.
    + right; left. rewrite Z.gtb_ltb in Hh. apply Z.ltb_ge in Hh. lia.
    + right; right; left. apply Z.ltb_ge in Hx. lia.
    + right; right; right. apply Z.ltb_ge in Hy. lia.
Qed.

(** X3: a bounding box that does not have four components, or a
    negative side of the canvas, makes the compositor raise [ValueError]:
    from the unpacking of line 93 or from [Image.new]. *)
Theorem build_fullsize_mask_bad_input (nearest : Z -> Z -> Z -> Z)
    (nat_w nat_h : Z) (bbox : list Z) (small_mask : Image) :
  length bbox <> 4%nat \/ nat_w < 0 \/ nat_h < 0 ->
  _build_fullsize_mask nearest nat_w nat_h bbox small_mask = Raise ValueError.
Proof.
  intros Hbad. unfold _build_fullsize_mask.
  destruct (unpack4 bbox) as [[[[x y] w] h]|e] eqn:Hq.
  - assert (Hlen : length bbox = 4%nat) by (apply unpack4_ok_iff; eauto).
    destruct Hbad as [Hbad|Hneg]; [contradiction|].
    cbn [mbind result_bind]. unfold Image_new.
    replace ((nat_w <? 0) || (nat_h <? 0)) with true; [reflexivity|].
    symmetry. apply orb_true_iff.
    destruct Hneg; [left | right]; apply Z.ltb_lt; assumption.
  - destruct bbox as [|a [|b [|c [|d [|e' t]]]]]; cbn in Hq;
      try (injection Hq as <-; reflexivity). discriminate Hq.
Qed.

Lemma getpixel_paste_inside (canvas m : Image) (x y i j : Z) :
  0 <= i < width canvas -> 0 <= j < height canvas ->
  x <= i < x + width m -> y <= j < y + height m ->
  getpixel (Image_paste canvas m x y) i j = Some (sample m (i - x) (j - y)).
Proof.
  intros Hi Hj Hx Hy. unfold Image_paste.
  rewrite getpixel_image_of_fun by assumption.
  replace ((x <=? i) && (i <? x + width m) && (y <=? j) && (j <? y + height m))
    with true; [reflexivity|].
  symmetry. repeat (apply andb_true_intro; split);
    first [apply Z.leb_le | apply Z.ltb_lt]; lia.
Qed.

Lemma getpixel_paste_resized (nearest : Z -> Z -> Z -> Z)
    (canvas small_mask m : Image) (w h x y i j : Z) :
  Image_resize nearest small_mask w h = Ok m ->
  0 <= i < width canvas -> 0 <= j < height canvas ->
  x <= i < x + w -> y <= j < y + h ->
  getpixel (Image_paste canvas m x y) i j
  = Some (sample small_mask (nearest (width small_mask) w (i - x))
            (nearest (height small_mask) h (j - y))).
Proof.
  intros Hm Hi Hj Hx Hy. unfold Image_resize in Hm.
  destruct ((w <? 1) || (h <? 1)); [discriminate Hm|].
  injection Hm as <-.
  rewrite getpixel_paste_inside by (cbn [width height image_of_fun]; lia).
  unfold sample at 1.
  rewrite getpixel_image_of_fun by lia. reflexivity.
Qed.

(** X4: inside the bounding box, every canvas pixel of the result is the
    pixel of the small mask that the resampling picks for it, the box
    being clamped to the canvas on the right and at the bottom. *)
Theorem build_fullsize_mask_inside (nearest : Z -> Z -> Z -> Z)
    (nat_w nat_h x y w h : Z) (small_mask full : Image) (i j : Z) :
  _build_fullsize_mask nearest nat_w nat_h [x; y; w; h] small_mask = Ok full ->
  0 <= i < nat_w -> 0 <= j < nat_h ->
  x <= i < x + w -> y <= j < y + h ->
  getpixel full i j
  = Some (sample small_mask
            (nearest (width small_mask) (Z.min w (nat_w - x)) (i - x))
            (nearest (height small_mask) (Z.min h (nat_h - y)) (j - y))).
Proof.
  intros Hrun Hi Hj Hx Hy.
  destruct (build_fullsize_mask_cases nearest nat_w nat_h x y w h small_mask)
    as [[Hoff _] | (Hw & Hh & Hxw & Hyh & m & Hm & Hpaste)]; try lia.
  rewrite Hpaste in Hrun. injection Hrun as <-.
  apply (getpixel_paste_resized nearest _ small_mask m _ _ x y i j Hm);
    cbn [width height]; lia.
Qed.

Lemma getpixel_in_range (im : Image) (i j : Z) :
  0 < width im -> Z.of_nat (length (pixels im)) = width im * height im ->
  0 <= i < width im -> 0 <= j < height im ->
  exists v, getpixel im i j = Some v.
Proof.
  intros Hw Hlen Hi Hj. unfold getpixel.
  replace ((0 <=? i) && (i <? width im) && (0 <=? j) && (j <? height im))
    with true
    by (symmetry; repeat (apply andb_true_intro; split);
        first [apply Z.leb_le | apply Z.ltb_lt]; lia).
  apply lookup_lt_is_Some_2. nia.
Qed.

(** X5: when the box has the size of the small mask and lies inside the
    canvas, and the resampling is the identity between equal sizes, the
    mask is copied into the canvas pixel for pixel. *)
Theorem build_fullsize_mask_same_size (nearest : Z -> Z -> Z -> Z)
    (nat_w nat_h x y : Z) (small_mask full : Image) (i j : Z) :
  (forall s k, 0 <= k < s -> nearest s s k = k) ->
  Z.of_nat (length (pixels small_mask)) = width small_mask * height small_mask ->
  0 <= x -> 0 <= y ->
  x + width small_mask <= nat_w -> y + height small_mask <= nat_h ->
  _build_fullsize_mask nearest nat_w nat_h
    [x; y; width small_mask; height small_mask] small_mask = Ok full ->
  0 <= i < width small_mask -> 0 <= j < height small_mask ->
  getpixel full (x + i) (y + j) = getpixel small_mask i j.
Proof.
  intros Hid Hlen Hx Hy Hfx Hfy Hrun Hi Hj.
  destruct (build_fullsize_mask_cases nearest nat_w nat_h x y
              (width small_mask) (height small_mask) small_mask)
    as [[Hoff _] | (Hw & Hh & Hxw & Hyh & m & Hm & Hpaste)]; try lia.
  rewrite Hpaste in Hrun. injection Hrun as <-.
  rewrite (getpixel_paste_resized nearest _ small_mask m _ _ x y
             (x + i) (y + j) Hm) by (cbn [width height]; lia).
  rewrite !Z.min_l by lia.
  replace (x + i - x) with i by lia. replace (y + j - y) with j by lia.
  rewrite !Hid by lia.
  destruct (getpixel_in_range small_mask i j) as [v Hv]; try lia.
  unfold sample. rewrite Hv. reflexivity.
Qed.

Lemma nearest_center_same_size (s k : Z) :
  0 <= k < s -> nearest_center s s k = k.
Proof.
  intros Hk. unfold nearest_center.
  replace ((2 * k + 1) * s) with (k * (2 * s) + s) by lia.
  rewrite Z.div_add_l by lia. rewrite Z.div_small by lia. lia.
Qed.

Lemma build_fullsize_mask_shape (nearest : Z -> Z -> Z -> Z)
    (nat_w nat_h : Z) (bbox : list Z) (small_mask full : Image) :
  _build_fullsize_mask nearest nat_w nat_h bbox small_mask = Ok full ->
  Forall binary (pixels small_mask) ->
  width full = nat_w /\ height full = nat_h
  /\ Z.of_nat (length (pixels full)) = nat_w * nat_h
  /\ Forall binary (pixels full).
Proof.
  intros Hrun Hbin.
  destruct bbox as [|x [|y [|w [|h [|e t]]]]]; try discriminate Hrun.
  assert (Hnw : 0 <= nat_w /\ 0 <= nat_h).
  { unfold _build_fullsize_mask, Image_new in Hrun.
    cbn [unpack4 mbind result_bind] in Hrun.
    destruct ((nat_w <? 0) || (nat_h <? 0)) eqn:Hneg; [discriminate Hrun|].
    apply orb_false_elim in Hneg as [H1 H2]. apply Z.ltb_ge in H1, H2. lia. }
  assert (Hblank : Forall binary (replicate (Z.to_nat (nat_w * nat_h)) 0))
    by (apply Forall_replicate; left; reflexivity).
  destruct (build_fullsize_mask_cases nearest nat_w nat_h x y w h small_mask)
    as [[_ Hb] | (Hw & Hh & Hxw & Hyh & m & Hm & Hp)]; try lia.
  - rewrite Hb in Hrun. injection Hrun as <-. cbn [width height pixels].
    repeat split; try assumption. rewrite length_replicate. nia.
  - rewrite Hp in Hrun. injection Hrun as <-.
    destruct (Image_resize_ok nearest small_mask
                (Z.min w (nat_w - x)) (Z.min h (nat_h - y)))
      as (m' & Hm' & _ & _ & Hmbin); [lia | lia |].
    assert (m' = m) as -> by congruence.
    unfold Image_paste at 1 2 3. cbn [width height image_of_fun].
    repeat split.
    + unfold Image_paste. rewrite length_image_of_fun. cbn [width height]. nia.
    + apply Image_paste_binary; [exact Hblank | auto].
Qed.

(** * Trimming *)

Lemma lstrip_head (s : str) (c : Z) (t : str) :
  lstrip s = c :: t -> isspace c = false.
Proof.
  induction s as [|a s IH]; [discriminate|].
  cbn [lstrip]. destruct (isspace a) eqn:Ha; [exact IH|].
  intros [= <- _]. exact Ha.
Qed.

Lemma lstrip_fixed (c : Z) (t : str) :
  isspace c = false -> lstrip (c :: t) = c :: t.
Proof. intros Hc. cbn [lstrip]. rewrite Hc. reflexivity. Qed.

Lemma lstrip_suffix (s : str) : exists p, s = p ++ lstrip s.
Proof.
  induction s as [|a s [p IH]]; [exists []; reflexivity|].
  cbn [lstrip]. destruct (isspace a).
  - exists (a :: p). cbn. f_equal. exact IH.
  - exists []. reflexivity.
Qed.

Lemma lstrip_idempotent (s : str) : lstrip (lstrip s) = lstrip s.
Proof.
  destruct (lstrip s) as [|c t] eqn:Hs; [reflexivity|].
  apply lstrip_fixed. exact (lstrip_head s c t Hs).
Qed.

(** A trimmed string is empty or begins and ends with a character that
    is not white space. *)
Lemma strip_ends (s : str) :
  strip s = []
  \/ (exists c t, strip s = c :: t /\ isspace c = false)
     /\ (exists t c, strip s = t ++ [c] /\ isspace c = false).
Proof.
  unfold strip.
  destruct (lstrip (rev (lstrip s))) as [|c' t'] eqn:Hb; [left; reflexivity|].
  right. pose proof (lstrip_head _ _ _ Hb) as Hc'.
  split; [|exists (rev t'), c'; split; [reflexivity | exact Hc']].
  destruct (lstrip_suffix (rev (lstrip s))) as [p Hp].
  rewrite Hb in Hp.
  assert (Ha : lstrip s = rev (c' :: t') ++ rev p).
  { rewrite <- (rev_involutive (lstrip s)), Hp, rev_app_distr. reflexivity. }
  destruct (rev (c' :: t')) as [|c t] eqn:Hr.
  { apply (f_equal (@length Z)) in Hr. rewrite length_rev in Hr. discriminate Hr. }
  exists c, t. split; [reflexivity|].
  cbn [app] in Ha. exact (lstrip_head s c _ Ha).
Qed.

Lemma strip_idempotent (s : str) : strip (strip s) = strip s.
Proof.
  destruct (strip_ends s) as [Hnil | [(c & t & Hhead & Hc) (t' & c' & Hlast & Hc')]].
  - rewrite Hnil. reflexivity.
  - unfold strip at 1. rewrite Hhead at 1. rewrite (lstrip_fixed c t Hc).
    rewrite <- Hhead, Hlast, rev_app_distr. cbn [rev app].
    rewrite (lstrip_fixed c' _ Hc'). cbn [rev].
    rewrite rev_involutive. reflexivity.
Qed.

(** * More on the translation chain *)

Section ChainMore.

Context (W : World) (C : Config).

Lemma try_deepl_inv (text : str) (evs : list event) (tr : pyval) :
  try_deepl W C text = (evs, Ok (Some tr)) ->
  exists r j,
    http_post W (deepl_request C text) = Ok r /\ status r = 200
    /\ resp_json r = Ok j /\ deepl_text j = Ok tr /\ truthy tr = true.
Proof.
  unfold try_deepl. run_io.
  destruct (http_post W (deepl_request C text)) as [r|e]; [|discriminate].
  destruct (status r =? 200) eqn:Hst.
  - apply Z.eqb_eq in Hst.
    destruct (resp_json r) as [j|e] eqn:Hj; [|discriminate].
    destruct (deepl_text j) as [v|e] eqn:Hx; [|discriminate].
    destruct (truthy v) eqn:Hv; [|discriminate].
    intros [= _ <-]. exists r, j. repeat split; assumption || reflexivity.
  - destruct (resp_text r); discriminate.
Qed.

Lemma try_libre_inv (text : str) (evs : list event) (tr : pyval) :
  try_libre W C text = (evs, Ok (Some tr)) ->
  exists r j,
    http_post W (libre_request C text) = Ok r /\ status r = 200
    /\ resp_json r = Ok j /\ libre_text j = Ok tr /\ truthy tr = true.
Proof.
  unfold try_libre. run_io.
  destruct (http_post W (libre_request C text)) as [r|e]; [|discriminate].
  destruct (status r =? 200) eqn:Hst.
  - apply Z.eqb_eq in Hst.
    destruct (resp_json r) as [j|e] eqn:Hj; [|discriminate].
    destruct (libre_text j) as [v|e] eqn:Hx; [|discriminate].
    destruct (truthy v) eqn:Hv; [|discriminate].
    intros [= _ <-]. exists r, j. repeat split; assumption || reflexivity.
  - destruct (resp_text r); discriminate.
Qed.

(** The whole run of the chain on a text that needs translation, in
    terms of what the two [try] blocks give. *)
Lemma translate_run (text : str) :
  CYRILLIC_RE_search text = true ->
  exists o1 o2,
    (if truthy (PStr (DEEPL_API_KEY C)) then try_deepl W C text else io_ret None)
    = (deepl_calls C text, Ok o1)
    /\ try_libre W C text = ([EvPost (libre_request C text)], Ok o2)
    /\ translate_ru_to_en W C text
       = match o1 with
         | Some tr => (deepl_calls C text, Ok (tr, Some deepl))
         | None =>
           (deepl_calls C text ++ [EvPost (libre_request C text)],
            Ok (match o2 with
                | Some tr => (tr, Some libre)
                | None => (PStr text, None)
                end))
         end.
Proof.
  intros Hcyr.
  assert (Hd : exists o1,
    (if truthy (PStr (DEEPL_API_KEY C)) then try_deepl W C text else io_ret None)
    = (deepl_calls C text, Ok o1)).
  { unfold deepl_calls. destruct (truthy (PStr (DEEPL_API_KEY C))).
    - apply try_deepl_total.
    - exists None. reflexivity. }
  destruct Hd as [o1 Hd]. destruct (try_libre_total W C text) as [o2 Hl].
  exists o1, o2. split; [exact Hd|]. split; [exact Hl|].
  unfold translate_ru_to_en.
  rewrite (truthy_PStr_true text), Hcyr by (apply search_nonempty; assumption).
  cbn [negb orb]. rewrite Hd. run_io.
  destruct o1 as [tr|].
  - rewrite app_nil_r. reflexivity.
  - rewrite Hl. destruct o2; rewrite app_nil_r; reflexivity.
Qed.

Lemma translate_skip (text : str) :
  CYRILLIC_RE_search text = false ->
  translate_ru_to_en W C text = ([], Ok (PStr text, None)).
Proof.
  intros Hno. unfold translate_ru_to_en. rewrite Hno, orb_true_r. reflexivity.
Qed.

(** X15: the chain posts at most once to each provider and to DeepL
    first; it never posts to DeepL without a key; and a text with a
    Cyrillic letter always leads to at least one post. *)
Theorem translate_calls_shape (text : str) :
  let calls := fst (translate_ru_to_en W C text) in
  (calls = []
   \/ calls = [EvPost (deepl_request C text)]
   \/ calls = [EvPost (libre_request C text)]
   \/ calls = [EvPost (deepl_request C text); EvPost (libre_request C text)])
  /\ (DEEPL_API_KEY C = [] -> EvPost (deepl_request C text) ∉ calls)
  /\ (CYRILLIC_RE_search text = true -> calls <> []).
Proof.
  cbn zeta.
  destruct (CYRILLIC_RE_search text) eqn:Hcyr.
  - destruct (translate_run text Hcyr) as (o1 & o2 & Hd & _ & Hrun).
    rewrite Hrun. unfold deepl_calls in *.
    destruct (truthy (PStr (DEEPL_API_KEY C))) eqn:Hkey.
    + destruct o1; cbn [fst app]; (split; [auto|]);
        (split; [|intros _; discriminate]);
        intros Hnil; rewrite Hnil in Hkey; discriminate Hkey.
    + injection Hd as <-. cbn [fst app]. split; [auto|]. split.
      * intros _ Hin. apply list_elem_of_singleton in Hin. inversion Hin.
      * intros _. discriminate.
  - rewrite (translate_skip text Hcyr). cbn [fst].
    split; [auto|]. split; [|intros [=]].
    intros _ Hin. apply elem_of_nil in Hin. exact Hin.
Qed.

(** X16: the provider the chain names is the one whose answer it
    returns: a translation attributed to DeepL (to LibreTranslate) is the
    non-empty value read from a status-200 JSON answer of that provider,
    DeepL being configured; with no provider named, the text comes back
    as it was given. *)
Theorem translate_provider_sound (text : str) (evs : list event)
    (v : pyval) (p : option provider) :
  translate_ru_to_en W C text = (evs, Ok (v, p)) ->
  match p with
  | Some deepl =>
    DEEPL_API_KEY C <> []
    /\ exists r j,
         http_post W (deepl_request C text) = Ok r /\ status r = 200
         /\ resp_json r = Ok j /\ deepl_text j = Ok v /\ truthy v = true
  | Some libre =>
    exists r j,
      http_post W (libre_request C text) = Ok r /\ status r = 200
      /\ resp_json r = Ok j /\ libre_text j = Ok v /\ truthy v = true
  | None => v = PStr text
  end.
Proof.
  destruct (CYRILLIC_RE_search text) eqn:Hcyr.
  - destruct (translate_run text Hcyr) as (o1 & o2 & Hd & Hl & Hrun).
    rewrite Hrun. destruct o1 as [tr|].
    + intros [= _ <- <-].
      destruct (truthy (PStr (DEEPL_API_KEY C))) eqn:Hkey; [|discriminate Hd].
      split.
      * intros Hnil. rewrite Hnil in Hkey. discriminate Hkey.
      * eapply try_deepl_inv. exact Hd.
    + destruct o2 as [tr|]; intros [= _ <- <-].
      * eapply try_libre_inv. exact Hl.
      * reflexivity.
  - rewrite (translate_skip text Hcyr). intros [= _ <- <-]. reflexivity.
Qed.

End ChainMore.

(** * More on the handler *)

Section HandlerMore.

Context (W : World) (C : Config).

(** X6: whenever the mask stage succeeds, the bytes it hands on are the
    PNG encoding of an image of the natural size whose pixels are all 0
    or 255. *)
Theorem build_mask_binary (f : fields) (mask_bytes : list Z) :
  build_mask W f = Ok mask_bytes ->
  exists full,
    save_png W full = Ok mask_bytes
    /\ width full = nat_w f /\ height full = nat_h f
    /\ Z.of_nat (length (pixels full)) = nat_w f * nat_h f
    /\ Forall binary (pixels full).
Proof.
  unfold build_mask, _unpack_bitmask_to_L.
  destruct (b64decode W (b64mask f)) as [raw|e]; [|discriminate].
  cbn [mbind result_bind].
  destruct (unpack_raw raw (bm_w f) (bm_h f)) as [small|e] eqn:Hsmall;
    [|discriminate].
  cbn [mbind result_bind].
  destruct (py_iter (bbox f)) as [items|e]; [|discriminate].
  cbn [mbind result_bind].
  destruct (mapM (py_int W) items) as [box|e]; [|discriminate].
  cbn [mbind result_bind].
  destruct (_build_fullsize_mask (nearest W) (nat_w f) (nat_h f) box small)
    as [full|e] eqn:Hfull; [|discriminate].
  cbn [mbind result_bind]. intros Hpng. exists full. split; [exact Hpng|].
  apply (build_fullsize_mask_shape _ _ _ _ _ _ Hfull).
  apply (unpack_raw_binary _ _ _ _ Hsmall).
Qed.

Lemma read_fields_bbox (LAST_IMAGE_URL : gmap Z str) (uid : Z)
    (kv : list (str * pyval)) (f : fields) :
  read_fields W LAST_IMAGE_URL uid (PDict kv) = Ok f ->
  bbox f = py_or (default PNone (assoc (u "bbox") kv))
             (PList [PInt 0; PInt 0; PInt 0; PInt 0]).
Proof.
  unfold read_fields, py_get, py_get_default. cbn [mbind result_bind].
  destruct (py_strip _); [|discriminate]. cbn [mbind result_bind].
  destruct (py_int W (py_or (default PNone (assoc (u "nat_w") kv)) _));
    [|discriminate].
  cbn [mbind result_bind].
  destruct (py_int W (py_or (default PNone (assoc (u "nat_h") kv)) _));
    [|discriminate].
  cbn [mbind result_bind].
  destruct (py_int W (py_or (default PNone (assoc (u "bm_w") kv)) _));
    [|discriminate].
  cbn [mbind result_bind].
  destruct (py_int W (py_or (default PNone (assoc (u "bm_h") kv)) _));
    [|discriminate].
  cbn [mbind result_bind].
  intros [= <-]. reflexivity.
Qed.

(** X7: a payload with no bounding box (absent, null or an empty list)
    whose bitmask decodes gives the all-zero mask of the natural size:
    nothing is selected, and this is no error. *)
Theorem build_mask_without_bbox (LAST_IMAGE_URL : gmap Z str) (uid : Z)
    (kv : list (str * pyval)) (f : fields) (raw : list Z) :
  read_fields W LAST_IMAGE_URL uid (PDict kv) = Ok f ->
  truthy (default PNone (assoc (u "bbox") kv)) = false ->
  b64decode W (b64mask f) = Ok raw ->
  0 <= bm_w f -> 0 <= bm_h f -> 0 <= nat_w f -> 0 <= nat_h f ->
  build_mask W f = save_png W (blank_canvas (nat_w f) (nat_h f)).
Proof.
  intros Hread Hbbox Hraw Hbw Hbh Hnw Hnh.
  pose proof (read_fields_bbox _ _ _ _ Hread) as Hb.
  unfold py_or in Hb. rewrite Hbbox in Hb.
  unfold build_mask, _unpack_bitmask_to_L. rewrite Hraw, Hb.
  cbn [mbind result_bind].
  destruct (unpack_raw_pixels raw (bm_w f) (bm_h f) Hbw Hbh) as (small & Hsmall & _).
  rewrite Hsmall. cbn [mbind result_bind py_iter mapM py_int].
  destruct (build_fullsize_mask_cases (nearest W) (nat_w f) (nat_h f) 0 0 0 0 small)
    as [[_ Hblank] | (Hw & _)]; [assumption | assumption | | lia].
  rewrite Hblank. reflexivity.
Qed.

Lemma build_fullsize_mask_negative (nat_w nat_h : Z) (box : list Z)
    (small : Image) :
  nat_w < 0 \/ nat_h < 0 ->
  exists e, _build_fullsize_mask (nearest W) nat_w nat_h box small = Raise e.
Proof.
  intros Hneg. unfold _build_fullsize_mask.
  destruct (unpack4 box) as [[[[x y] w] h]|e]; [|eauto].
  cbn [mbind result_bind]. unfold Image_new.
  replace ((nat_w <? 0) || (nat_h <? 0)) with true; [eauto|].
  symmetry. apply orb_true_iff.
  destruct Hneg; [left | right]; apply Z.ltb_lt; assumption.
Qed.

Lemma build_mask_negative (f : fields) :
  bm_w f < 0 \/ bm_h f < 0 \/ nat_w f < 0 \/ nat_h f < 0 ->
  exists e, build_mask W f = Raise e.
Proof.
  intros Hneg. unfold build_mask, _unpack_bitmask_to_L.
  destruct (b64decode W (b64mask f)) as [raw|e]; [|eauto].
  cbn [mbind result_bind].
  destruct (decide (bm_w f < 0 \/ bm_h f < 0)) as [Hbm|Hbm].
  { rewrite (unpack_raw_negative raw _ _ Hbm). eauto. }
  destruct (unpack_raw raw (bm_w f) (bm_h f)) as [small|e]; [|eauto].
  cbn [mbind result_bind].
  destruct (py_iter (bbox f)) as [items|e]; [|eauto].
  cbn [mbind result_bind].
  destruct (mapM (py_int W) items) as [box|e]; [|eauto].
  cbn [mbind result_bind].
  destruct (build_fullsize_mask_negative (nat_w f) (nat_h f) box small)
    as [e He]; [lia|].
  rewrite He. eauto.
Qed.

(** X8: a negative size is not zero, so it passes validation; the mask
    stage then fails, and all the handler does is report the mask error:
    no file is read and no request is sent. *)
Theorem negative_size_is_mask_error (LAST_IMAGE_URL : gmap Z str) (uid : Z)
    (d : str) (data : pyval) (f : fields) :
  d <> [] -> json_loads W d = Ok data ->
  read_fields W LAST_IMAGE_URL uid data = Ok f ->
  missing f = false ->
  bm_w f < 0 \/ bm_h f < 0 \/ nat_w f < 0 \/ nat_h f < 0 ->
  exists e,
    webapp_data W C LAST_IMAGE_URL uid (Some d)
    = ([EvReplyText (u "❌ Ошибка сборки маски: " ++ exn_text W e)], Ok tt).
Proof.
  intros Hd Hjson Hread Hmiss Hneg.
  rewrite (webapp_data_validate W C _ _ _ _ _ Hd Hjson Hread), Hmiss.
  destruct (build_mask_negative f Hneg) as [e He].
  exists e. unfold after_validation. rewrite He. reflexivity.
Qed.

(** X9: a payload that is valid JSON but not an object (a list, a
    number, a string, [null]) is not answered at all: reading its first
    field raises [AttributeError], which the handler does not catch. *)
Theorem non_object_payload_raises (LAST_IMAGE_URL : gmap Z str) (uid : Z)
    (d : str) (data : pyval) :
  d <> [] -> json_loads W d = Ok data ->
  (forall kv, data <> PDict kv) ->
  webapp_data W C LAST_IMAGE_URL uid (Some d) = ([], Raise AttributeError).
Proof.
  intros Hd Hjson Hnot. unfold webapp_data.
  destruct d as [|c d]; [congruence|].
  rewrite Hjson. unfold guarded, lift, io_bind.
  destruct data; try reflexivity.
  exfalso. eapply Hnot. reflexivity.
Qed.

Lemma download_bytes_run (url : str) :
  download_bytes W url
  = ([EvGet url],
     match http_get W url with
     | Ok r => if 400 <=? status r then Raise (ClientError (dec (status r)))
               else resp_read r
     | Raise e => Raise e
     end).
Proof.
  unfold download_bytes, raise_for_status. run_io.
  destruct (http_get W url) as [r|e]; [|reflexivity].
  destruct (400 <=? status r); reflexivity.
Qed.

(** X12: [download_bytes] makes exactly one GET, and returns a body
    exactly when the request was answered with a status below 400 and the
    body could be read; a status of 400 or more is never returned as
    data. *)
Theorem download_bytes_ok_iff (url : str) :
  fst (download_bytes W url) = [EvGet url]
  /\ forall data,
       snd (download_bytes W url) = Ok data
       <-> exists r, http_get W url = Ok r /\ status r < 400
                     /\ resp_read r = Ok data.
Proof.
  rewrite download_bytes_run. cbn [fst snd]. split; [reflexivity|].
  intros data. split.
  - destruct (http_get W url) as [r|e]; [|discriminate].
    destruct (400 <=? status r) eqn:Hst; [discriminate|].
    apply Z.leb_gt in Hst. eauto.
  - intros (r & -> & Hst & Hread).
    apply Z.leb_gt in Hst. rewrite Hst. exact Hread.
Qed.

(** X13: the backend call returns bytes only as the body of an answer
    with status 200 whose content type contains [image/], after exactly
    one POST of the edit request. *)
Theorem call_stability_inpaint_ok_inv (image mask : list Z) (p : pyval)
    (evs : list event) (data : list Z) :
  call_stability_inpaint W C image mask p = (evs, Ok data) ->
  exists s r,
    p = PStr s
    /\ evs = [EvPost (stability_request C image mask s)]
    /\ http_post W (stability_request C image mask s) = Ok r
    /\ status r = 200
    /\ contains (u "image/") (default [] (content_type r)) = true
    /\ resp_read r = Ok data.
Proof.
  unfold call_stability_inpaint.
  destruct p as [| | | |s| |]; try discriminate.
  run_io.
  destruct (http_post W (stability_request C image mask s)) as [r|e] eqn:Hpost;
    [|discriminate].
  unfold stability_result.
  destruct (status r =? 200) eqn:Hst; cbn [negb].
  - destruct (contains (u "image/") (default [] (content_type r))) eqn:Hct;
      cbn [negb].
    + intros [= <- Hread]. apply Z.eqb_eq in Hst.
      exists s, r. repeat split; assumption || reflexivity.
    + destruct (resp_text r); discriminate.
  - destruct (resp_text r); discriminate.
Qed.


Lemma translate_quiet (text : str) :
  exists evs v,
    translate_ru_to_en W C text = (evs, Ok v) /\ Forall not_reply_text evs.
Proof.
  destruct (CYRILLIC_RE_search text) eqn:Hcyr.
  - destruct (translate_run W C text Hcyr) as (o1 & o2 & _ & _ & Hrun).
    rewrite Hrun. unfold deepl_calls.
    destruct o1; destruct (truthy (PStr (DEEPL_API_KEY C)));
      eexists _, _; (split; [reflexivity|]); cbn; repeat constructor.
  - rewrite (translate_skip W C text Hcyr). eexists _, _.
    split; [reflexivity | constructor].
Qed.

Lemma translate_prompt_quiet (f : fields) :
  exists evs pc,
    translate_prompt W C f = (evs, Ok pc) /\ Forall not_reply_text evs.
Proof.
  unfold translate_prompt.
  destruct (truthy (PStr (prompt f))).
  - destruct (translate_quiet (prompt f)) as (evs & [v p] & Hrun & Hq).
    rewrite Hrun. unfold io_bind, io_ret.
    destruct (bool_decide (is_Some p) && truthy v);
      eexists _, _; (split; [reflexivity|]); rewrite app_nil_r; exact Hq.
  - eexists _, _. split; [reflexivity | constructor].
Qed.

Section Replies.

Variable reply_text : str -> result unit.

(** When no text message is refused, the handler is [webapp_data]. *)
Lemma webapp_data_replying_agrees (LAST_IMAGE_URL : gmap Z str) (uid : Z)
    (wad : option str) :
  (forall t, reply_text t = Ok tt) ->
  webapp_data_replying W C reply_text LAST_IMAGE_URL uid wad
  = webapp_data W C LAST_IMAGE_URL uid wad.
Proof.
  intros Hok.
  unfold webapp_data_replying, webapp_data, after_validation_replying,
    after_validation, submit_and_reply_replying, submit_and_reply,
    guarded_replying, guarded, send_text, emit.
  destruct wad as [[|c d]|]; try reflexivity.
  destruct (lift (json_loads W (c :: d))) as [evs [data|e]];
    [|rewrite Hok; reflexivity].
  f_equal. unfold io_bind, lift.
  destruct (read_fields W LAST_IMAGE_URL uid data) as [f|e]; [|reflexivity].
  destruct (missing f); [rewrite Hok; reflexivity|].
  destruct (build_mask W f) as [mask|e]; [|rewrite Hok; reflexivity].
  destruct (load_source W C f) as [evs1 [image|e]]; [|rewrite Hok; reflexivity].
  destruct (translate_prompt W C f) as [evs2 [[p cap]|e]]; [|reflexivity].
  destruct (call_stability_inpaint W C image mask (py_or p (PStr (u "inpaint"))))
    as [evs3 [png|e]]; [|rewrite Hok; reflexivity].
  unfold io_try.
  destruct (reply_photo W png _) as [[]|e]; [reflexivity|].
  rewrite Hok. reflexivity.
Qed.

(** Splits a trace given in full into its last event and what precedes,
    and checks that only the last event may be a text message. *)
Ltac last_event :=
  match goal with
  | |- exists evs ev, (?l, _) = _ /\ _ =>
      let l' := eval cbn [app] in l in
      match l' with
      | [?a] => exists [], a
      | [?a; ?b] => exists [a], b
      | [?a; ?b; ?c] => exists [a; b], c
      end
  end;
  cbn; repeat split; repeat constructor.

Lemma submit_and_reply_replying_outcome (image mask : list Z) (p : pyval)
    (cap : str) :
  exists evs ev,
    submit_and_reply_replying W C reply_text image mask p cap
    = (evs ++ [ev], outcome_of_last reply_text ev)
    /\ is_reply ev /\ Forall not_reply_text evs.
Proof.
  unfold submit_and_reply_replying, call_stability_inpaint, guarded_replying,
    send_text.
  destruct (py_or p (PStr (u "inpaint"))) as [| | | |s| |];
    try (exists [], (EvReplyText (u "❌ Ошибка Stability: "
                                   ++ exn_text W AttributeError));
         cbn; repeat split; constructor).
  run_io.
  destruct (http_post W (stability_request C image mask s)) as [r|e].
  - destruct (stability_result r) as [png|e].
    + destruct (reply_photo W png _) as [[]|e].
      * last_event.
      * last_event.
    + last_event.
  - last_event.
Qed.


(** The same for a lemma to share: the run after validation ends with a
    reply whose outcome is the handler's. *)
Lemma after_validation_replying_last (f : fields) :
  exists evs ev,
    after_validation_replying W C reply_text f
    = (evs ++ [ev], outcome_of_last reply_text ev).
Proof.
  unfold after_validation_replying.
  destruct (build_mask W f) as [mask|e];
    [|unfold guarded_replying, lift, send_text, emit; cbn [app];
      exists [], (EvReplyText (u "❌ Ошибка сборки маски: " ++ exn_text W e));
      reflexivity].
  destruct (load_source W C f) as [evs1 [image|e]];
    [|unfold guarded_replying, lift, send_text, emit; cbn [app];
      exists evs1, (EvReplyText
                      (u "❌ Ошибка загрузки исходного изображения: "
                         ++ exn_text W e));
      reflexivity].
  destruct (translate_prompt_quiet f) as (evs2 & [p cap] & Htr & _).
  destruct (submit_and_reply_replying_outcome image mask p cap)
    as (evs3 & ev & Hsub & _).
  unfold guarded_replying, lift, io_bind. rewrite Htr, Hsub. cbn [app].
  exists (evs1 ++ evs2 ++ evs3), ev. rewrite <- !app_assoc. reflexivity.
Qed.

(** The shapes of a whole run of the handler. *)
Lemma webapp_data_replying_cases (LAST_IMAGE_URL : gmap Z str) (uid : Z)
    (wad : option str) :
  webapp_data_replying W C reply_text LAST_IMAGE_URL uid wad = ([], Ok tt)
  \/ (exists d data e,
        wad = Some d /\ d <> [] /\ json_loads W d = Ok data
        /\ read_fields W LAST_IMAGE_URL uid data = Raise e
        /\ webapp_data_replying W C reply_text LAST_IMAGE_URL uid wad
           = ([], Raise e))
  \/ (exists evs ev,
        webapp_data_replying W C reply_text LAST_IMAGE_URL uid wad
        = (evs ++ [ev], outcome_of_last reply_text ev)).
Proof.
  unfold webapp_data_replying.
  destruct wad as [[|c d]|]; [left; reflexivity | | left; reflexivity].
  unfold guarded_replying, lift, io_bind, send_text, emit.
  destruct (json_loads W (c :: d)) as [data|e] eqn:Hjson;
    [|right; right;
      exists [], (EvReplyText (u "❌ Ошибка JSON: " ++ exn_text W e));
      reflexivity].
  destruct (read_fields W LAST_IMAGE_URL uid data) as [f|e] eqn:Hread.
  - right; right.
    destruct (missing f); [exists [], (EvReplyText msg_missing); reflexivity|].
    destruct (after_validation_replying_last f) as (evs & ev & ->).
    exists evs, ev. reflexivity.
  - right; left. exists (c :: d), data, e.
    repeat split; try assumption. discriminate.
Qed.

(** A failure while the fields are read leaves the handler at once. *)
Lemma webapp_data_replying_fields_raise (LAST_IMAGE_URL : gmap Z str)
    (uid : Z) (d : str) (data : pyval) (e : exn) :
  d <> [] -> json_loads W d = Ok data ->
  read_fields W LAST_IMAGE_URL uid data = Raise e ->
  webapp_data_replying W C reply_text LAST_IMAGE_URL uid (Some d)
  = ([], Raise e).
Proof.
  intros Hd Hjson Hread. unfold webapp_data_replying.
  destruct d as [|c d]; [congruence|].
  unfold guarded_replying, lift, io_bind. rewrite Hjson, Hread. reflexivity.
Qed.

(** X10: the handler lets an exception escape in exactly two cases: the
    payload parses as JSON and reading its fields (lines 224-231) raises,
    nothing having been sent; or the text message that ends its run is
    refused, and the exception is that of the refusal.  Every other
    failure is caught. *)
Theorem webapp_data_escapes_iff (LAST_IMAGE_URL : gmap Z str) (uid : Z)
    (wad : option str) (evs : list event) (e : exn) :
  webapp_data_replying W C reply_text LAST_IMAGE_URL uid wad = (evs, Raise e)
  <-> (evs = []
       /\ exists d data,
            wad = Some d /\ d <> [] /\ json_loads W d = Ok data
            /\ read_fields W LAST_IMAGE_URL uid data = Raise e)
      \/ (exists evs' t,
            fst (webapp_data_replying W C reply_text LAST_IMAGE_URL uid wad)
            = evs' ++ [EvReplyText t]
            /\ evs = evs' ++ [EvReplyText t]
            /\ reply_text t = Raise e).
Proof.
  split.
  - intros Hraise.
    destruct (webapp_data_replying_cases LAST_IMAGE_URL uid wad)
      as [Hrun | [(d & data & e' & -> & Hd & Hjson & Hread & Hrun)
                 | (evs0 & ev & Hrun)]];
      rewrite Hrun in Hraise.
    + discriminate Hraise.
    + injection Hraise as <- <-. left. split; [reflexivity|].
      exists d, data. repeat split; assumption.
    + injection Hraise as <- Hout. right.
      destruct ev as [| | | | |t|]; try discriminate Hout.
      exists evs0, t. rewrite Hrun. repeat split. exact Hout.
  - intros [(-> & d & data & -> & Hd & Hjson & Hread)
           | (evs' & t & Hfst & -> & Hrefuse)].
    + apply webapp_data_replying_fields_raise with (data := data); assumption.
    + destruct (webapp_data_replying_cases LAST_IMAGE_URL uid wad)
        as [Hrun | [(d & data & e' & _ & _ & _ & _ & Hrun)
                   | (evs0 & ev & Hrun)]];
        rewrite Hrun in Hfst |- *; cbn [fst] in Hfst.
      * destruct evs'; discriminate Hfst.
      * destruct evs'; discriminate Hfst.
      * apply app_inj_tail in Hfst as [-> ->]. cbn. rewrite Hrefuse.
        reflexivity.
Qed.

End Replies.

(** X14: a prompt field in the outbound form is the trimmed prompt, and
    it is never empty nor padded: it begins and ends with a character
    that is not white space. *)
Theorem stability_prompt_field (image mask : list Z) (p v : str) :
  TextField (u "prompt") v ∈ stability_form image mask p ->
  v = strip p /\ v <> []
  /\ (exists c t, v = c :: t /\ isspace c = false)
  /\ (exists t c, v = t ++ [c] /\ isspace c = false).
Proof.
  unfold stability_form. rewrite truthy_PStr. intros Hin.
  apply list_elem_of_In in Hin. cbn [app In] in Hin.
  destruct Hin as [Hin | [Hin | Hin]]; [discriminate Hin | discriminate Hin |].
  destruct (decide (strip p = [])) as [Hnil|Hne].
  - rewrite bool_decide_eq_true_2 in Hin by assumption. cbn in Hin.
    destruct Hin as [Hin | []]. discriminate Hin.
  - rewrite bool_decide_eq_false_2 in Hin by assumption. cbn in Hin.
    destruct Hin as [Hin | [Hin | []]]; [|discriminate Hin].
    injection Hin as <-. split; [reflexivity|]. split; [exact Hne|].
    destruct (strip_ends p) as [Hnil | Hends]; [contradiction | exact Hends].
Qed.





End HandlerMore.

(** * Uploads and the source image *)

Lemma startswith_app (p s : str) : startswith (p ++ s) p = true.
Proof.
  induction p as [|a p IH]; [destruct s; reflexivity|].
  cbn [app startswith]. rewrite Z.eqb_refl. exact IH.
Qed.

Lemma startswith_head (s sep : str) (q c : Z) :
  c <> q -> startswith (c :: s) (q :: sep) = false.
Proof.
  intros Hc. cbn [startswith].
  replace (q =? c) with false by (symmetry; apply Z.eqb_neq; congruence).
  reflexivity.
Qed.

(** A string without the first character of the separator is one piece. *)
Lemma split_go_no_match (q : Z) (sep s : str) : forall cur,
  Forall (fun c => c <> q) s ->
  split_go (q :: sep) O cur s = [rev cur ++ s].
Proof.
  induction s as [|c s IH]; intros cur Hs.
  - cbn. rewrite app_nil_r. reflexivity.
  - apply Forall_cons in Hs as [Hc Hs].
    cbn [split_go]. rewrite (startswith_head s sep q c Hc).
    rewrite (IH (c :: cur) Hs). cbn [rev]. rewrite <- app_assoc. reflexivity.
Qed.

Lemma split_go_skip (sep s t : str) : forall cur,
  split_go sep (length s) cur (s ++ t) = split_go sep O cur t.
Proof.
  induction s as [|c s IH]; intros cur; [reflexivity|].
  cbn [length app split_go]. apply IH.
Qed.

(** A match of [/uploads/] that starts inside [a], in [a] followed by
    [/uploads/...], shows [/uploads] inside [a]. *)
Lemma no_early_match (a name : str) :
  a <> [] ->
  startswith (a ++ u "/uploads/" ++ name) (u "/uploads/") = true ->
  startswith a (u "/uploads") = true.
Proof.
  intros Ha.
  change (u "/uploads/") with [47; 117; 112; 108; 111; 97; 100; 115; 47].
  change (u "/uploads") with [47; 117; 112; 108; 111; 97; 100; 115].
  destruct a as [|c0 [|c1 [|c2 [|c3 [|c4 [|c5 [|c6 [|c7 a]]]]]]]];
    [congruence | ..];
    cbn [app startswith]; intros H;
    repeat (apply andb_prop in H as [?H H]);
    repeat match goal with
           | E : (_ =? _) = true |- _ => apply Z.eqb_eq in E
           end;
    subst; try discriminate; try (destruct a); reflexivity.
Qed.

(** A string that is the separator followed by a piece without the first
    character of the separator splits into the part before and that
    piece. *)
Lemma split_go_at_sep (q : Z) (sep name cur : str) :
  Forall (fun c => c <> q) name ->
  split_go (q :: sep) O cur ((q :: sep) ++ name) = [rev cur; name].
Proof.
  intros Hname. cbn [app split_go].
  pose proof (startswith_app (q :: sep) name) as Hm. cbn [app] in Hm.
  rewrite Hm. f_equal.
  replace (length (q :: sep) - 1)%nat with (length sep) by (cbn; lia).
  rewrite split_go_skip.
  rewrite (split_go_no_match q sep name [] Hname). reflexivity.
Qed.

Lemma split_go_last (name : str) : forall a cur,
  contains (u "/uploads") a = false ->
  Forall (fun c => c <> 47) name ->
  last (split_go (u "/uploads/") O cur (a ++ u "/uploads/" ++ name)) = Some name.
Proof.
  induction a as [|c a IH]; intros cur Hno Hname.
  - cbn [app].
    change (u "/uploads/") with (47 :: [117; 112; 108; 111; 97; 100; 115; 47]).
    rewrite (split_go_at_sep 47 _ name cur Hname). reflexivity.
  - cbn [contains] in Hno. apply orb_false_elim in Hno as [Hhead Htail].
    cbn [app split_go].
    destruct (startswith (c :: a ++ u "/uploads/" ++ name) (u "/uploads/"))
      eqn:Hm.
    + pose proof (no_early_match (c :: a) name ltac:(discriminate) Hm) as Hc.
      rewrite Hc in Hhead. discriminate Hhead.
    + apply IH; assumption.
Qed.

Section Uploads.

Context (W : World) (C : Config).

(** X19: an image stored by [save_tg_file_to_uploads] is found again by
    the handler: for the public URL it returned, the source stage looks
    at the very path it wrote, reads the file when it is there and makes
    no request; it fetches the URL only when the file is gone.  The file
    name has no [/] and no [?], and [/uploads] does not occur in the
    base URL. *)
Theorem uploaded_image_is_read_locally (fid name : str) (f : fields) :
  upload_name W fid = Ok name ->
  Forall (fun c => c <> cp "/") name -> Forall (fun c => c <> cp "?") name ->
  contains (u "/uploads") (PUBLIC_BASE_URL C) = false ->
  exists local_path public_url,
    save_tg_file_to_uploads W C fid
    = ([EvSaveUpload fid], Ok (local_path, public_url))
    /\ (img_url f = PStr public_url ->
        load_source W C f
        = if path_exists W local_path
          then ([EvExists local_path; EvReadFile local_path],
                read_file W local_path)
          else ([EvExists local_path; EvGet public_url],
                snd (download_bytes W public_url))).
Proof.
  intros Hname Hslash Hquery Hbase.
  change (cp "/") with 47 in Hslash. change (cp "?") with 63 in Hquery.
  exists (os_path_join UPLOAD_DIR name),
         (PUBLIC_BASE_URL C ++ u "/uploads/" ++ name).
  split.
  - unfold save_tg_file_to_uploads. run_io. rewrite Hname. reflexivity.
  - intros Hurl. unfold load_source. rewrite Hurl.
    rewrite (app_assoc (PUBLIC_BASE_URL C) (u "/uploads/") name) at 1.
    rewrite startswith_app. cbv zeta. unfold split.
    rewrite !(split_go_last name (PUBLIC_BASE_URL C) [] Hbase Hslash).
    change (default [] (Some name)) with name.
    change (u "?") with [63].
    rewrite !(split_go_no_match 63 [] name [] Hquery). cbn [rev app hd].
    run_io. destruct (path_exists W (os_path_join UPLOAD_DIR name)).
    + reflexivity.
    + rewrite download_bytes_run. reflexivity.
Qed.

End Uploads.

(** * Configuration and the WebApp button *)

Lemma lstrip_char_head (q : Z) (s : str) (c : Z) (t : str) :
  lstrip_char q s = c :: t -> c <> q.
Proof.
  induction s as [|a s IH]; [discriminate|].
  cbn [lstrip_char]. destruct (a =? q) eqn:Ha; [exact IH|].
  intros [= <- _]. apply Z.eqb_neq. exact Ha.
Qed.

Lemma rstrip_char_last (q : Z) (s : str) : last (rstrip_char q s) <> Some q.
Proof.
  unfold rstrip_char.
  destruct (lstrip_char q (rev s)) as [|c t] eqn:Hs; [discriminate|].
  cbn [rev]. rewrite last_snoc. intros [= ->].
  exact (lstrip_char_head q _ q t Hs eq_refl).
Qed.

Lemma getenv_empty_iff (env : gmap str str) (k : str) :
  getenv env k [] = [] <-> env !! k = None \/ env !! k = Some [].
Proof.
  unfold getenv. destruct (env !! k) as [v|]; cbn.
  - split; [intros ->; right; reflexivity | intros [H|H]; congruence].
  - split; [left; reflexivity | reflexivity].
Qed.

(** X22: the bot refuses to start exactly when [BOT_TOKEN] or
    [STABILITY_API_KEY] is unset or empty; a configuration it starts with
    has both non-empty, base URLs that do not end with a slash, and
    translator settings without surrounding white space. *)
Theorem load_settings_spec (env : gmap str str) :
  (load_settings env = None
   <-> ((env !! u "BOT_TOKEN" = None \/ env !! u "BOT_TOKEN" = Some [])
        \/ (env !! u "STABILITY_API_KEY" = None
            \/ env !! u "STABILITY_API_KEY" = Some [])))
  /\ forall S, load_settings env = Some S ->
       BOT_TOKEN S = getenv env (u "BOT_TOKEN") [] /\ BOT_TOKEN S <> []
       /\ STABILITY_API_KEY (settings_config S) <> []
       /\ last (PUBLIC_BASE_URL (settings_config S)) <> Some (cp "/")
       /\ last (LIBRETRANSLATE_URL (settings_config S)) <> Some (cp "/")
       /\ strip (DEEPL_API_KEY (settings_config S))
          = DEEPL_API_KEY (settings_config S)
       /\ strip (LIBRETRANSLATE_API_KEY (settings_config S))
          = LIBRETRANSLATE_API_KEY (settings_config S).
Proof.
  unfold load_settings. rewrite !truthy_PStr, !negb_involutive.
  rewrite <- !getenv_empty_iff.
  destruct (decide (getenv env (u "BOT_TOKEN") [] = [])) as [Hb|Hb];
    [rewrite (bool_decide_eq_true_2 _ Hb)
    |rewrite (bool_decide_eq_false_2 _ Hb)]; cbn [orb].
  - split; [split; [intros _; left; exact Hb | reflexivity] | discriminate].
  - destruct (decide (getenv env (u "STABILITY_API_KEY") [] = [])) as [Hs|Hs];
      [rewrite (bool_decide_eq_true_2 _ Hs)
      |rewrite (bool_decide_eq_false_2 _ Hs)].
    + split; [split; [intros _; right; exact Hs | reflexivity] | discriminate].
    + split.
      * split; [discriminate | intros [H|H]; contradiction].
      * intros S [= <-]. cbn.
        repeat split; try assumption;
          try apply rstrip_char_last; apply strip_idempotent.
Qed.

Lemma public_url_nonempty (base name : str) :
  base ++ u "/uploads/" ++ name <> [].
Proof.
  intros H. apply (f_equal (@length Z)) in H.
  rewrite !length_app in H. vm_compute (length (u "/uploads/")) in H.
  cbn [length] in H. lia.
Qed.

(** X23: after an upload by a user, [brush_cmd] offers that user the
    WebApp link [got_image] sent, with the URL of the upload as [img];
    what it offers to any other user is unchanged, and a user with no
    upload gets the link without [img]. *)
Theorem brush_cmd_after_upload (W : World) (C : Config) (store : gmap Z str)
    (uid ver : Z) (fid name : str) :
  upload_name W fid = Ok name ->
  exists evs store',
    got_image W C store uid (Some fid) = (evs, Ok store')
    /\ snd (brush_cmd C store' uid ver)
       = got_image_markup C ver (PUBLIC_BASE_URL C ++ u "/uploads/" ++ name)
    /\ (forall uid', uid' <> uid ->
          brush_cmd C store' uid' ver = brush_cmd C store uid' ver)
    /\ (forall uid', store' !! uid' = None ->
          web_app_url (snd (brush_cmd C store' uid' ver))
          = PUBLIC_BASE_URL C ++ u "/index.html?v=" ++ dec ver).
Proof.
  intros Hname.
  unfold got_image, save_tg_file_to_uploads. run_io. rewrite Hname. cbn [app].
  eexists _, _. split; [reflexivity|]. split; [|split].
  - unfold brush_cmd, got_image_markup. rewrite lookup_insert_eq.
    rewrite (truthy_PStr_true _ (public_url_nonempty _ _)). reflexivity.
  - intros uid' Hne. unfold brush_cmd.
    rewrite lookup_insert_ne by congruence. reflexivity.
  - intros uid' Hnone. unfold brush_cmd. rewrite Hnone.
    cbn [snd web_app_url reply_wa]. rewrite !app_nil_r. reflexivity.
Qed.

(** * Storing an upload *)

Lemma after_first_skip (q : Z) (p s : str) :
  Forall (fun c => c <> q) p ->
  after_first q (p ++ q :: s) = Some s.
Proof.
  induction 1 as [|c p Hc _ IH]; cbn [app after_first].
  - rewrite Z.eqb_refl. reflexivity.
  - replace (c =? q) with false by (symmetry; apply Z.eqb_neq; exact Hc).
    exact IH.
Qed.

(** Cutting at the last dot takes an extension without further dots off. *)
Lemma rsplit1_head_ext (stem e : str) :
  Forall (fun c => c <> cp ".") e ->
  rsplit1_head (cp ".") (stem ++ cp "." :: e) = stem.
Proof.
  intros He. unfold rsplit1_head.
  rewrite rev_app_distr. cbn [rev]. rewrite <- app_assoc. cbn [app].
  rewrite after_first_skip.
  - apply rev_involutive.
  - apply Forall_forall. intros c Hc.
    apply list_elem_of_In, in_rev, list_elem_of_In in Hc.
    rewrite Forall_forall in He. apply He, Hc.
Qed.

Section Store.

Context (W : World) (C : Config) (E : UploadEnv).

(** The run of [store_tg_file] once the file path is known and the bytes
    are fetched. *)
Lemma store_tg_file_run (bot_token fid file_path : str) (data : list Z) :
  get_file_path E fid = Ok file_path ->
  snd (download_bytes W (tg_file_url bot_token file_path)) = Ok data ->
  let ext := upload_ext E file_path in
  let name := upload_stem E ++ ext in
  let '(data', name') :=
    if bool_decide (ext = u ".webp") then
      match webp_to_png E data with
      | Ok png => (png, upload_stem E ++ u ".png")
      | Raise _ => (data, name)
      end
    else (data, name) in
  store_tg_file W C E bot_token fid
  = ([EvGet (tg_file_url bot_token file_path)],
     match write_file E (os_path_join UPLOAD_DIR name') data' with
     | Ok _ =>
       Ok ((os_path_join UPLOAD_DIR name',
            PUBLIC_BASE_URL C ++ u "/uploads/" ++ name'), data')
     | Raise e => Raise e
     end).
Proof.
  intros Hpath Hdata. cbv zeta.
  unfold store_tg_file. rewrite Hpath. unfold lift at 1. unfold io_bind at 1.
  rewrite download_bytes_run in *. cbn [snd] in Hdata. rewrite Hdata.
  unfold io_bind at 1. unfold upload_stem. rewrite <- !app_assoc.
  destruct (bool_decide (upload_ext E file_path = u ".webp")) eqn:Hext.
  - apply bool_decide_eq_true_1 in Hext. rewrite Hext.
    destruct (webp_to_png E data) as [png|e].
    + replace (rsplit1_head (cp ".") (dec (now E) ++ u "_" ++ uuid_hex E ++ u ".webp"))
        with (dec (now E) ++ u "_" ++ uuid_hex E).
      * rewrite <- !app_assoc. run_io.
        destruct (write_file E _ png) as [[]|e]; reflexivity.
      * symmetry. rewrite !app_assoc.
        change (u ".webp") with (cp "." :: u "webp").
        apply rsplit1_head_ext.
        repeat (constructor; [vm_compute; congruence|]). constructor.
    + run_io. destruct (write_file E _ data) as [[]|e']; reflexivity.
  - run_io. destruct (write_file E _ data) as [[]|e]; reflexivity.
Qed.

Lemma upload_ext_nonempty (file_path : str) : upload_ext E file_path <> [].
Proof.
  unfold upload_ext. rewrite truthy_PStr.
  destruct (decide (lower E (splitext_ext E file_path) = [])) as [Hnil|Hne].
  - rewrite (bool_decide_eq_true_2 _ Hnil). discriminate.
  - rewrite (bool_decide_eq_false_2 _ Hne). exact Hne.
Qed.

(** X20: a WebP upload is stored as PNG: when the conversion succeeds the
    converted bytes are written under the [.png] name, which is also the
    name in the public URL; when it raises, the original bytes are
    written under the [.webp] name and the upload goes on. *)
Theorem store_webp_as_png (bot_token fid file_path : str) (data : list Z) :
  get_file_path E fid = Ok file_path ->
  upload_ext E file_path = u ".webp" ->
  snd (download_bytes W (tg_file_url bot_token file_path)) = Ok data ->
  (forall png,
     webp_to_png E data = Ok png ->
     write_file E (os_path_join UPLOAD_DIR (upload_stem E ++ u ".png")) png
     = Ok tt ->
     store_tg_file W C E bot_token fid
     = ([EvGet (tg_file_url bot_token file_path)],
        Ok ((os_path_join UPLOAD_DIR (upload_stem E ++ u ".png"),
             PUBLIC_BASE_URL C ++ u "/uploads/" ++ upload_stem E ++ u ".png"),
            png)))
  /\ (forall e,
        webp_to_png E data = Raise e ->
        write_file E (os_path_join UPLOAD_DIR (upload_stem E ++ u ".webp")) data
        = Ok tt ->
        store_tg_file W C E bot_token fid
        = ([EvGet (tg_file_url bot_token file_path)],
           Ok ((os_path_join UPLOAD_DIR (upload_stem E ++ u ".webp"),
                PUBLIC_BASE_URL C ++ u "/uploads/" ++ upload_stem E ++ u ".webp"),
               data))).
Proof.
  intros Hpath Hext Hdata.
  pose proof (store_tg_file_run bot_token fid file_path data Hpath Hdata) as Hrun.
  cbv zeta in Hrun. rewrite Hext in Hrun.
  rewrite bool_decide_eq_true_2 in Hrun by reflexivity.
  split.
  - intros png Hpng Hwrite. rewrite Hpng, Hwrite in Hrun. exact Hrun.
  - intros e He Hwrite. rewrite He, Hwrite in Hrun. exact Hrun.
Qed.

(** X21: whatever the file, a stored upload has a name made of the time
    stamp, the random part and a non-empty extension ([.jpg] when the
    Telegram path has none); the local path and the public URL returned
    carry that same name, the bytes were written to that path, and the
    file was fetched with one GET. *)
Theorem store_tg_file_result (bot_token fid : str) (evs : list event)
    (local_path public_url : str) (written : list Z) :
  store_tg_file W C E bot_token fid
  = (evs, Ok ((local_path, public_url), written)) ->
  exists file_path ext,
    get_file_path E fid = Ok file_path
    /\ evs = [EvGet (tg_file_url bot_token file_path)]
    /\ ext <> []
    /\ (ext = upload_ext E file_path \/ ext = u ".png")
    /\ local_path = os_path_join UPLOAD_DIR (upload_stem E ++ ext)
    /\ public_url = PUBLIC_BASE_URL C ++ u "/uploads/" ++ upload_stem E ++ ext
    /\ write_file E local_path written = Ok tt.
Proof.
  intros Hrun.
  destruct (get_file_path E fid) as [file_path|e] eqn:Hpath;
    [|unfold store_tg_file in Hrun; rewrite Hpath in Hrun; discriminate Hrun].
  destruct (snd (download_bytes W (tg_file_url bot_token file_path)))
    as [data|e] eqn:Hdata.
  - pose proof (store_tg_file_run bot_token fid file_path data Hpath Hdata) as Hr.
    cbv zeta in Hr. rewrite Hrun in Hr. exists file_path.
    destruct (bool_decide (upload_ext E file_path = u ".webp"));
      [destruct (webp_to_png E data) as [png|e]|].
    + destruct (write_file E _ png) as [[]|e] eqn:Hw; [|discriminate Hr].
      injection Hr as -> -> -> ->. exists (u ".png").
      repeat split; try assumption; try discriminate. right. reflexivity.
    + destruct (write_file E _ data) as [[]|e'] eqn:Hw; [|discriminate Hr].
      injection Hr as -> -> -> ->. exists (upload_ext E file_path).
      repeat split; try assumption; [apply upload_ext_nonempty | left; reflexivity].
    + destruct (write_file E _ data) as [[]|e'] eqn:Hw; [|discriminate Hr].
      injection Hr as -> -> -> ->. exists (upload_ext E file_path).
      repeat split; try assumption; [apply upload_ext_nonempty | left; reflexivity].
  - exfalso. unfold store_tg_file in Hrun. rewrite Hpath in Hrun.
    unfold lift at 1 in Hrun. unfold io_bind at 1 in Hrun.
    rewrite download_bytes_run in *. cbn [snd] in Hdata. rewrite Hdata in Hrun.
    discriminate Hrun.
Qed.

End Store.

(** * The further properties at concrete inputs *)

Lemma unpack_bitmask_negative_side_witness :
  _unpack_bitmask_to_L (fun _ : unit => Ok [192]) tt (-2) 2 = Raise ValueError.
Proof.
  apply (unpack_bitmask_negative_side (fun _ : unit => Ok [192]) tt [192] (-2) 2);
    [reflexivity | left; lia | lia].
Defined.

Lemma build_fullsize_mask_bad_input_witness :
  _build_fullsize_mask nearest_center 10 10 [2; 2; 2] ex_small = Raise ValueError.
Proof.
  apply (build_fullsize_mask_bad_input nearest_center 10 10 [2; 2; 2] ex_small).
  left. cbn. lia.
Defined.

Lemma unpack_bitmask_binary_witness :
  width ex_small = 2 /\ height ex_small = 2
  /\ Z.of_nat (length (pixels ex_small)) = 2 * 2
  /\ Forall binary (pixels ex_small).
Proof.
  apply (unpack_bitmask_binary (fun _ : unit => Ok [192]) tt 2 2 ex_small).
  reflexivity.
Defined.

Lemma build_fullsize_mask_inside_witness :
  getpixel ex_full 3 2
  = Some (sample ex_small (nearest_center 2 (Z.min 2 (10 - 2)) (3 - 2))
            (nearest_center 2 (Z.min 2 (10 - 2)) (2 - 2))).
Proof.
  apply (build_fullsize_mask_inside nearest_center 10 10 2 2 2 2 ex_small ex_full);
    [vm_compute; reflexivity | lia | lia | lia | lia].
Defined.

Lemma build_fullsize_mask_same_size_witness :
  getpixel ex_full (2 + 1) (2 + 0) = getpixel ex_small 1 0.
Proof.
  apply (build_fullsize_mask_same_size nearest_center 10 10 2 2 ex_small ex_full);
    [ apply nearest_center_same_size | reflexivity | lia | lia
    | cbn; lia | cbn; lia | vm_compute; reflexivity | cbn; lia | cbn; lia ].
Defined.

Lemma translate_provider_sound_witness :
  DEEPL_API_KEY ex_config <> []
  /\ exists r j,
       http_post (ex_world PNone (ex_post deepl_cat service_down backend_ok))
         (deepl_request ex_config (u "кот")) = Ok r
       /\ status r = 200 /\ resp_json r = Ok j
       /\ deepl_text j = Ok (PStr (u "cat"))
       /\ truthy (PStr (u "cat")) = true.
Proof.
  apply (translate_provider_sound
           (ex_world PNone (ex_post deepl_cat service_down backend_ok)) ex_config
           (u "кот") [EvPost (deepl_request ex_config (u "кот"))]
           (PStr (u "cat")) (Some deepl)).
  vm_compute. reflexivity.
Defined.

Lemma build_mask_binary_witness :
  exists full,
    save_png (ex_run payload_no_img) full = Ok ex_mask
    /\ width full = 4 /\ height full = 4
    /\ Z.of_nat (length (pixels full)) = 4 * 4
    /\ Forall binary (pixels full).
Proof.
  apply (build_mask_binary (ex_run payload_no_img) ex_fields ex_mask).
  vm_compute. reflexivity.
Defined.

Lemma build_mask_without_bbox_witness :
  build_mask (ex_run payload_no_bbox) fields_no_bbox
  = save_png (ex_run payload_no_bbox) (blank_canvas 4 4).
Proof.
  apply (build_mask_without_bbox (ex_run payload_no_bbox) ex_store 7
           [(u "img", PStr (u "https://example.org/a.png"));
            (u "nat_w", PInt 4); (u "nat_h", PInt 4);
            (u "bm_w", PInt 2); (u "bm_h", PInt 2);
            (u "bitmask", PStr (u "wA=="))]
           fields_no_bbox [192]);
    [vm_compute; reflexivity | vm_compute; reflexivity | reflexivity
    | cbn; lia | cbn; lia | cbn; lia | cbn; lia].
Defined.

Lemma negative_size_is_mask_error_witness :
  exists e,
    webapp_data (ex_run payload_negative) ex_config ex_store 7 (Some (u "{}"))
    = ([EvReplyText (u "❌ Ошибка сборки маски: "
                       ++ exn_text (ex_run payload_negative) e)], Ok tt).
Proof.
  apply (negative_size_is_mask_error (ex_run payload_negative) ex_config
           ex_store 7 (u "{}") payload_negative fields_negative);
    [ vm_compute; congruence | reflexivity | vm_compute; reflexivity
    | vm_compute; reflexivity | left; cbn; lia ].
Defined.

Lemma non_object_payload_raises_witness :
  webapp_data (ex_run (PList [PInt 1])) ex_config ex_store 7 (Some (u "[1]"))
  = ([], Raise AttributeError).
Proof.
  apply (non_object_payload_raises (ex_run (PList [PInt 1])) ex_config
           ex_store 7 (u "[1]") (PList [PInt 1]));
    [vm_compute; congruence | reflexivity | discriminate].
Defined.

Lemma call_stability_inpaint_ok_inv_witness :
  exists s r,
    PStr (u "cat") = PStr s
    /\ [EvPost (stability_request ex_config [1] [2] (u "cat"))]
       = [EvPost (stability_request ex_config [1] [2] s)]
    /\ http_post (ex_run PNone) (stability_request ex_config [1] [2] s) = Ok r
    /\ status r = 200
    /\ contains (u "image/") (default [] (content_type r)) = true
    /\ resp_read r = Ok [7; 7].
Proof.
  apply (call_stability_inpaint_ok_inv (ex_run PNone) ex_config [1] [2]
           (PStr (u "cat"))).
  vm_compute. reflexivity.
Defined.

Lemma stability_prompt_field_witness :
  u "a cat" = strip (u "  a cat ") /\ u "a cat" <> []
  /\ (exists c t, u "a cat" = c :: t /\ isspace c = false)
  /\ (exists t c, u "a cat" = t ++ [c] /\ isspace c = false).
Proof.
  apply (stability_prompt_field [1] [2] (u "  a cat ") (u "a cat")).
  apply list_elem_of_In. vm_compute. right. right. left. reflexivity.
Defined.



Lemma uploaded_image_is_read_locally_witness :
  exists local_path public_url,
    save_tg_file_to_uploads (ex_run PNone) ex_config (u "file-1")
    = ([EvSaveUpload (u "file-1")], Ok (local_path, public_url))
    /\ (img_url ex_fields = PStr public_url ->
        load_source (ex_run PNone) ex_config ex_fields
        = if path_exists (ex_run PNone) local_path
          then ([EvExists local_path; EvReadFile local_path],
                read_file (ex_run PNone) local_path)
          else ([EvExists local_path; EvGet public_url],
                snd (download_bytes (ex_run PNone) public_url))).
Proof.
  apply (uploaded_image_is_read_locally (ex_run PNone) ex_config
           (u "file-1") (u "1_ab.jpg") ex_fields).
  - reflexivity.
  - repeat (constructor; [vm_compute; congruence|]). constructor.
  - repeat (constructor; [vm_compute; congruence|]). constructor.
  - vm_compute. reflexivity.
Defined.

Lemma brush_cmd_after_upload_witness :
  exists evs store',
    got_image (ex_run PNone) ex_config ∅ 7 (Some (u "file-1")) = (evs, Ok store')
    /\ snd (brush_cmd ex_config store' 7 100)
       = got_image_markup ex_config 100
           (PUBLIC_BASE_URL ex_config ++ u "/uploads/" ++ u "1_ab.jpg")
    /\ (forall uid', uid' <> 7 ->
          brush_cmd ex_config store' uid' 100 = brush_cmd ex_config ∅ uid' 100)
    /\ (forall uid', store' !! uid' = None ->
          web_app_url (snd (brush_cmd ex_config store' uid' 100))
          = PUBLIC_BASE_URL ex_config ++ u "/index.html?v=" ++ dec 100).
Proof.
  apply (brush_cmd_after_upload (ex_run PNone) ex_config ∅ 7 100
           (u "file-1") (u "1_ab.jpg")).
  reflexivity.
Defined.

Lemma store_webp_as_png_witness :
  store_tg_file (ex_run PNone) ex_config
    (ex_upload_env (u "photos/a.webp") (u ".webp") (Ok [9; 9]))
    (u "tok") (u "file-1")
  = ([EvGet (tg_file_url (u "tok") (u "photos/a.webp"))],
     Ok ((os_path_join UPLOAD_DIR (u "1700000000_ab12" ++ u ".png"),
          PUBLIC_BASE_URL ex_config ++ u "/uploads/" ++ u "1700000000_ab12"
            ++ u ".png"),
         [9; 9])).
Proof.
  apply (proj1 (store_webp_as_png (ex_run PNone) ex_config
                  (ex_upload_env (u "photos/a.webp") (u ".webp") (Ok [9; 9]))
                  (u "tok") (u "file-1") (u "photos/a.webp") [1; 2; 3]
                  eq_refl eq_refl eq_refl) [9; 9]);
    reflexivity.
Defined.

Lemma store_tg_file_result_witness :
  exists file_path ext,
    get_file_path (ex_upload_env (u "photos/a") [] (Raise ValueError)) (u "file-1")
    = Ok file_path
    /\ [EvGet (tg_file_url (u "tok") (u "photos/a"))]
       = [EvGet (tg_file_url (u "tok") file_path)]
    /\ ext <> []
    /\ (ext = upload_ext (ex_upload_env (u "photos/a") [] (Raise ValueError))
                file_path
        \/ ext = u ".png")
    /\ os_path_join UPLOAD_DIR (u "1700000000_ab12.jpg")
       = os_path_join UPLOAD_DIR
           (upload_stem (ex_upload_env (u "photos/a") [] (Raise ValueError)) ++ ext)
    /\ u "https://funfishinggame.store/uploads/1700000000_ab12.jpg"
       = PUBLIC_BASE_URL ex_config ++ u "/uploads/"
           ++ upload_stem (ex_upload_env (u "photos/a") [] (Raise ValueError))
           ++ ext
    /\ write_file (ex_upload_env (u "photos/a") [] (Raise ValueError))
         (os_path_join UPLOAD_DIR (u "1700000000_ab12.jpg")) [1; 2; 3]
       = Ok tt.
Proof.
  apply (store_tg_file_result (ex_run PNone) ex_config
           (ex_upload_env (u "photos/a") [] (Raise ValueError))
           (u "tok") (u "file-1")).
  vm_compute. reflexivity.
Defined.

(** A refused text message leaves the handler: the payload has no mask,
    the message asking for one is the only event, and the exception of
    its refusal escapes.  When Telegram accepts the message, the same run
    is that of [webapp_data]. *)
Example refused_message_escapes :
  webapp_data_replying (ex_run payload_no_mask) ex_config refuse_text
    ex_store 7 (Some (u "{}"))
  = ([EvReplyText msg_missing], Raise (ClientError (u "flood")))
  /\ webapp_data_replying (ex_run payload_no_mask) ex_config
       (fun _ => Ok tt) ex_store 7 (Some (u "{}"))
     = webapp_data (ex_run payload_no_mask) ex_config ex_store 7
         (Some (u "{}")).
Proof. split; vm_compute; reflexivity. Qed.
